(** * KMTronic one-channel USB relay controller

    A shallow embedding of [Relay_Control_One_Ch.py]: port discovery
    ([find_relay_ports]), the two-byte command sender ([send_command]),
    the JSON description store ([load_descriptions], [save_descriptions])
    and the controller methods of [RelayControlApp] ([toggle_relay],
    [update_ui], [save_description], [clear_description], [refresh_ports],
    [create_ui], [__init__]).

    Python dictionaries are finite maps ([gmap]); Python strings are
    [string]s whose characters are read as code points below 256; the
    libraries the program calls (pyserial, json, os, tkinter) are the
    environment, modelled by the state [World] and a few primitives. *)

From Stdlib Require Import Strings.Ascii Strings.Byte.
From stdpp Require Import base option list strings gmap fin_maps.

#[local] Arguments String.append !_ _ / : simpl nomatch.

(** ** Python exceptions and the state-and-exception monad *)

Inductive exn : Type :=
  | KeyError (key : string)
  | IndexError (msg : string)
  | SerialException (msg : string)
  | JSONDecodeError (msg : string)
  | FileNotFoundError (path : string)
  | TclError (msg : string).

(** [str(e)], as interpolated by the f-string of [send_command]. *)
Definition exn_str (e : exn) : string :=
  match e with
  | KeyError k => "'" +:+ k +:+ "'"
  | IndexError m | SerialException m | JSONDecodeError m | TclError m => m
  | FileNotFoundError p => "No such file or directory: '" +:+ p +:+ "'"
  end.

Inductive Result (A : Type) : Type :=
  | Ok (a : A)
  | Raise (e : exn).
Arguments Ok {A} a.
Arguments Raise {A} e.

(** A computation over a mutable state [S]: it returns or raises, and in
    both cases leaves a state behind (mutations made before a [raise]
    stay). *)
Definition M (S A : Type) : Type := S → Result A * S.

Global Instance M_ret {S} : MRet (M S) := λ A a s, (Ok a, s).
Global Instance M_bind {S} : MBind (M S) := λ A B k m s,
  match m s with
  | (Ok a, s') => k a s'
  | (Raise e, s') => (Raise e, s')
  end.

Definition raise {S A} (e : exn) : M S A := λ s, (Raise e, s).
Definition get_state {S} : M S S := λ s, (Ok s, s).
Definition modify {S} (f : S → S) : M S unit := λ s, (Ok tt, f s).

(** [try: body / except Exception as e: handler e]. *)
Definition try_except {S A} (body : M S A) (handler : exn → M S A) : M S A :=
  λ s, match body s with
       | (Ok a, s') => (Ok a, s')
       | (Raise e, s') => handler e s'
       end.

(** [try: body / finally: cleanup] (the release half of a [with] block). *)
Definition try_finally {S A} (body : M S A) (cleanup : M S unit) : M S A :=
  λ s, match body s with
       | (r, s') =>
           match cleanup s' with
           | (Ok _, s'') => (r, s'')
           | (Raise e, s'') => (Raise e, s'')
           end
       end.

(** Python's [d[k]] on a dictionary. *)
Definition getitem {S V} (d : gmap string V) (k : string) : M S V :=
  match d !! k with
  | Some v => mret v
  | None => raise (KeyError k)
  end.

(** ** The environment *)

(** [serial.tools.list_ports.ListPortInfo], the three attributes read. *)
Record ListPortInfo := {
  device : string;
  hwid : string;
  serial_number : string
}.

(** What the hardware does on one attempt to use a port. *)
Inductive SerialOutcome : Type :=
  | SerialOK
  | OpenFails (msg : string)
  | WriteFails (msg : string).

(** Everything observable from outside the process, in order. *)
Inductive Event : Type :=
  | EvOpen (port : string) (baud : Z) (timeout : Z)
  | EvWrite (port : string) (data : list byte)
  | EvClose (port : string)
  | EvShowError (title msg : string)
  | EvShowInfo (title msg : string)
  | EvFileWrite (path : string) (content : string).

Record World := {
  comports : list ListPortInfo;        (* serial.tools.list_ports.comports() *)
  serial_script : list SerialOutcome;  (* outcome of each future open attempt *)
  files : gmap string string;          (* the files that exist, by path *)
  trace : list Event
}.

Definition emit (e : Event) : M World unit :=
  modify (λ w, {| comports := comports w; serial_script := serial_script w;
                  files := files w; trace := trace w ++ [e] |}).

(** *** tkinter.messagebox *)

Definition showerror (title msg : string) : M World unit := emit (EvShowError title msg).
Definition showinfo (title msg : string) : M World unit := emit (EvShowInfo title msg).

(** *** pyserial *)

Definition list_ports_comports : M World (list ListPortInfo) :=
  λ w, (Ok (comports w), w).

(** An open [serial.Serial] object. *)
Record Serial := {
  ser_port : string;
  ser_write_fault : option string
}.

Definition next_outcome (w : World) : SerialOutcome * World :=
  match serial_script w with
  | [] => (SerialOK, w)
  | o :: rest =>
      (o, {| comports := comports w; serial_script := rest;
             files := files w; trace := trace w |})
  end.

(** [serial.Serial(port, baud, timeout=timeout)]: opens the port or raises. *)
Definition Serial_open (port : string) (baud timeout : Z) : M World Serial :=
  emit (EvOpen port baud timeout) ;;
  o ← (λ w, let '(o, w') := next_outcome w in (Ok o, w')) ;
  match o with
  | OpenFails msg => raise (SerialException msg)
  | WriteFails msg => mret {| ser_port := port; ser_write_fault := Some msg |}
  | SerialOK => mret {| ser_port := port; ser_write_fault := None |}
  end.

(** [ser.write(data)]: returns the number of bytes written or raises. *)
Definition Serial_write (ser : Serial) (data : list byte) : M World nat :=
  emit (EvWrite (ser_port ser) data) ;;
  match ser_write_fault ser with
  | Some msg => raise (SerialException msg)
  | None => mret (length data)
  end.

Definition Serial_close (ser : Serial) : M World unit := emit (EvClose (ser_port ser)).

(** [with serial.Serial(...) as ser: body ser]: the port is closed on every
    exit of the body. *)
Definition with_Serial {A} (port : string) (baud timeout : Z)
    (body : Serial → M World A) : M World A :=
  ser ← Serial_open port baud timeout ;
  try_finally (body ser) (Serial_close ser).

(** ** Module-level code *)

Definition DESCRIPTION_FILE : string := "relay_descriptions.json".
Definition PRODUCT_ID : string := "6001".

(** Python's [needle in hay] on strings. *)
Fixpoint str_in (needle hay : string) : bool :=
  String.prefix needle hay ||
  match hay with
  | EmptyString => false
  | String _ hay' => str_in needle hay'
  end.

(** The body of the loop of [find_relay_ports]. *)
Definition relay_step (relays : gmap string string) (port : ListPortInfo)
    : gmap string string :=
  if str_in PRODUCT_ID (hwid port)
  then <[serial_number port := device port]> relays
  else relays.

Definition find_relay_ports : M World (gmap string string) :=
  ports ← list_ports_comports ;
  mret (foldl relay_step ∅ ports).

Definition send_command (port : string) (state : bool) : M World unit :=
  try_except
    (with_Serial port 9600 1
       (λ ser, Serial_write ser (if state then [xff; x01] else [xff; x00]) ;;
               mret tt))
    (λ e, showerror "Error" ("Failed to send command: " +:+ exn_str e)).

(** *** os and the file system *)

Definition os_path_exists (path : string) : M World bool :=
  λ w, (Ok (bool_decide (is_Some (files w !! path))), w).

(** [with open(path, 'r') as f: f.read()]. *)
Definition read_file (path : string) : M World string :=
  λ w, match files w !! path with
       | Some content => (Ok content, w)
       | None => (Raise (FileNotFoundError path), w)
       end.

(** [with open(path, 'w') as f: f.write(content)]: the file is replaced. *)
Definition write_file (path content : string) : M World unit :=
  modify (λ w, {| comports := comports w; serial_script := serial_script w;
                  files := <[path := content]> (files w); trace := trace w |}) ;;
  emit (EvFileWrite path content).

(** *** json

    The store holds a JSON object from strings to strings. [json_dumps d]
    is the text [json.dump(d, f, indent=2)] writes, [json_loads s] is what
    [json.load] returns on a file holding [s], [None] when it raises
    [JSONDecodeError]. *)
Class Json := {
  json_dumps : gmap string string → string;
  json_loads : string → option (gmap string string)
}.

(** The contract of the library: what was dumped loads back. *)
Class JsonLawful `{Json} : Prop :=
  json_loads_dumps : ∀ d : gmap string string, json_loads (json_dumps d) = Some d.

(** *** str.strip *)

(** [c.isspace()] for a code point below 256. *)
Definition py_isspace (c : ascii) : bool :=
  let n := nat_of_ascii c in
  ((9 <=? n) && (n <=? 13)) || ((28 <=? n) && (n <=? 32)) || (n =? 133) || (n =? 160).

Fixpoint lstrip (s : string) : string :=
  match s with
  | EmptyString => EmptyString
  | String c s' => if py_isspace c then lstrip s' else s
  end.

Fixpoint rstrip (s : string) : string :=
  match s with
  | EmptyString => EmptyString
  | String c s' =>
      match rstrip s' with
      | EmptyString => if py_isspace c then EmptyString else String c EmptyString
      | r => String c r
      end
  end.

Definition strip (s : string) : string := rstrip (lstrip s).

(** *** tkinter widgets *)

Inductive Widget : Type :=
  | Button (text : string)
  | Canvas
  | ScrolledText.

(** [w.config(text=t)]. *)
Definition config_text {S} (w : Widget) (t : string) : M S Widget :=
  match w with
  | Button _ => mret (Button t)
  | _ => raise (TclError "unknown option -text")
  end.

Definition newline : string := String "010"%char EmptyString.

(** A text widget is modelled by its content; Tk keeps a final newline
    after it, which [get("1.0", "end")] returns too. *)
Definition Text_get_all (content : string) : string := content +:+ newline.
Definition Text_insert_end (content s : string) : string := content +:+ s.
Definition Text_delete_all (content : string) : string := "".

(** ** class RelayControlApp *)

(** The attributes of [self]. A dictionary of widgets is kept as a
    dictionary of what the widget shows: the fill colour of the status
    circle, the text in the description box, the children of the row's
    frame (the toggle button is the first child). *)
Record RelayControlApp := {
  relay_ports : gmap string string;
  relay_frames : gmap string (list Widget);
  status_circles : gmap string string;
  relay_states : gmap string bool;
  description_boxes : gmap string string;
  relay_descriptions : gmap string string;
  selected_com_port : string
}.

Definition set_relay_frames (f : gmap string (list Widget) → gmap string (list Widget))
    (a : RelayControlApp) : RelayControlApp :=
  {| relay_ports := relay_ports a; relay_frames := f (relay_frames a);
     status_circles := status_circles a; relay_states := relay_states a;
     description_boxes := description_boxes a;
     relay_descriptions := relay_descriptions a;
     selected_com_port := selected_com_port a |}.

Definition set_status_circles (f : gmap string string → gmap string string)
    (a : RelayControlApp) : RelayControlApp :=
  {| relay_ports := relay_ports a; relay_frames := relay_frames a;
     status_circles := f (status_circles a); relay_states := relay_states a;
     description_boxes := description_boxes a;
     relay_descriptions := relay_descriptions a;
     selected_com_port := selected_com_port a |}.

Definition set_relay_states (f : gmap string bool → gmap string bool)
    (a : RelayControlApp) : RelayControlApp :=
  {| relay_ports := relay_ports a; relay_frames := relay_frames a;
     status_circles := status_circles a; relay_states := f (relay_states a);
     description_boxes := description_boxes a;
     relay_descriptions := relay_descriptions a;
     selected_com_port := selected_com_port a |}.

Definition set_description_boxes (f : gmap string string → gmap string string)
    (a : RelayControlApp) : RelayControlApp :=
  {| relay_ports := relay_ports a; relay_frames := relay_frames a;
     status_circles := status_circles a; relay_states := relay_states a;
     description_boxes := f (description_boxes a);
     relay_descriptions := relay_descriptions a;
     selected_com_port := selected_com_port a |}.

Definition set_relay_descriptions (f : gmap string string → gmap string string)
    (a : RelayControlApp) : RelayControlApp :=
  {| relay_ports := relay_ports a; relay_frames := relay_frames a;
     status_circles := status_circles a; relay_states := relay_states a;
     description_boxes := description_boxes a;
     relay_descriptions := f (relay_descriptions a);
     selected_com_port := selected_com_port a |}.

Definition set_selected_com_port (port : string)
    (a : RelayControlApp) : RelayControlApp :=
  {| relay_ports := relay_ports a; relay_frames := relay_frames a;
     status_circles := status_circles a; relay_states := relay_states a;
     description_boxes := description_boxes a;
     relay_descriptions := relay_descriptions a;
     selected_com_port := port |}.

(** The running program: the application object and its environment. *)
Record Process := {
  self : RelayControlApp;
  env : World
}.

(** Module-level functions and library calls act on the environment only. *)
Definition liftW {A} (m : M World A) : M Process A :=
  λ p, let '(r, w) := m (env p) in (r, {| self := self p; env := w |}).

Definition get_self : M Process RelayControlApp := λ p, (Ok (self p), p).

Definition modify_self (f : RelayControlApp → RelayControlApp) : M Process unit :=
  modify (λ p, {| self := f (self p); env := env p |}).

(** Python's [l[i]] on a list. *)
Definition list_getitem {S A} (l : list A) (i : nat) : M S A :=
  match l !! i with
  | Some x => mret x
  | None => raise (IndexError "list index out of range")
  end.

Section RelayControlApp.
Context `{Json}.

Definition load_descriptions : M Process unit :=
  present ← liftW (os_path_exists DESCRIPTION_FILE) ;
  if (present : bool) then
    content ← liftW (read_file DESCRIPTION_FILE) ;
    match json_loads content with
    | Some d => modify_self (set_relay_descriptions (λ _, d))
    | None => raise (JSONDecodeError "Expecting value")
    end
  else mret tt.

Definition save_descriptions : M Process unit :=
  app ← get_self ;
  liftW (write_file DESCRIPTION_FILE (json_dumps (relay_descriptions app))).

(** One iteration of the row loop of [create_ui]. *)
Definition create_row (app : RelayControlApp) (serial_num : string) : RelayControlApp :=
  let desc_box :=
    match relay_descriptions app !! serial_num with
    | Some d => Text_insert_end "" d
    | None => ""
    end in
  set_relay_frames
    <[serial_num := [Button "OFF"; Canvas; ScrolledText; Button "Save"; Button "Clear"]]>
    (set_description_boxes <[serial_num := desc_box]>
       (set_relay_states <[serial_num := false]>
          (set_status_circles <[serial_num := "red"]> app))).

Definition create_ui : M Process unit :=
  infos ← liftW list_ports_comports ;
  let ports := device <$> infos in
  match ports with
  | first :: _ => modify_self (set_selected_com_port first)
  | [] => mret tt
  end ;;
  modify_self (λ app, foldl create_row app (map_to_list (relay_ports app)).*1).

Definition refresh_ports : M Process unit :=
  infos ← liftW list_ports_comports ;
  let ports := device <$> infos in
  modify_self (set_selected_com_port (match ports with first :: _ => first | [] => "" end)) ;;
  liftW (showinfo "Ports Refreshed" "Available COM ports updated.").

Definition update_ui (serial_num : string) : M Process unit :=
  app ← get_self ;
  state ← getitem (relay_states app) serial_num ;
  _ ← getitem (status_circles app) serial_num ;
  modify_self (set_status_circles
                 <[serial_num := if (state : bool) then "green" else "red"]>) ;;
  app ← get_self ;
  frame ← getitem (relay_frames app) serial_num ;
  btn ← list_getitem frame 0 ;
  btn ← config_text btn (if (state : bool) then "ON" else "OFF") ;
  modify_self (set_relay_frames <[serial_num := <[0 := btn]> frame]>).

Definition toggle_relay (serial_num : string) : M Process unit :=
  app ← get_self ;
  current_state ← getitem (relay_states app) serial_num ;
  let new_state := negb current_state in
  let port := selected_com_port app in
  if bool_decide (port = "") then
    liftW (showerror "Error" "Please select a COM port first!")
  else
    liftW (send_command port new_state) ;;
    modify_self (set_relay_states <[serial_num := new_state]>) ;;
    update_ui serial_num.

Definition save_description (serial_num : string) : M Process unit :=
  app ← get_self ;
  box ← getitem (description_boxes app) serial_num ;
  let text := strip (Text_get_all box) in
  modify_self (set_relay_descriptions <[serial_num := text]>) ;;
  save_descriptions ;;
  liftW (showinfo "Saved" ("Description for Relay " +:+ serial_num +:+ " saved.")).

Definition clear_description (serial_num : string) : M Process unit :=
  app ← get_self ;
  box ← getitem (description_boxes app) serial_num ;
  modify_self (set_description_boxes <[serial_num := Text_delete_all box]>) ;;
  app ← get_self ;
  if bool_decide (is_Some (relay_descriptions app !! serial_num)) then
    modify_self (set_relay_descriptions (delete serial_num)) ;;
    save_descriptions
  else mret tt.

Definition __init__ : M Process unit :=
  relays ← liftW find_relay_ports ;
  modify_self (λ _, {| relay_ports := relays; relay_frames := ∅;
                       status_circles := ∅; relay_states := ∅;
                       description_boxes := ∅; relay_descriptions := ∅;
                       selected_com_port := "" |}) ;;
  load_descriptions ;;
  create_ui.

End RelayControlApp.

(** ** The Tk main loop *)

(** What the user can do with the window. The combo box is editable, so
    any port string can be selected; a description box holds whatever
    was typed into it. *)
Inductive UserAction : Type :=
  | ClickToggle (serial_num : string)
  | ClickSave (serial_num : string)
  | ClickClear (serial_num : string)
  | ClickRefresh
  | SelectPort (port : string)
  | EditDescription (serial_num text : string)
  | Replug (ports : list ListPortInfo).

Section MainLoop.
Context `{Json}.

Definition callback (a : UserAction) : M Process unit :=
  match a with
  | ClickToggle sn => toggle_relay sn
  | ClickSave sn => save_description sn
  | ClickClear sn => clear_description sn
  | ClickRefresh => refresh_ports
  | SelectPort port => modify_self (set_selected_com_port port)
  | EditDescription sn text =>
      modify_self (set_description_boxes (alter (λ _, text) sn))
  | Replug ports =>
      liftW (modify (λ w, {| comports := ports; serial_script := serial_script w;
                             files := files w; trace := trace w |}))
  end.

(** Tk reports an exception raised by a callback and goes on with the
    state the callback left. *)
Definition mainloop_step (p : Process) (a : UserAction) : Process := (callback a p).2.

(** An object before [__init__] has run; [__init__] overwrites every field. *)
Definition blank : RelayControlApp :=
  {| relay_ports := ∅; relay_frames := ∅; status_circles := ∅; relay_states := ∅;
     description_boxes := ∅; relay_descriptions := ∅; selected_com_port := "" |}.

(** The states of a run: the application started normally in some
    environment, then any number of user actions. *)
Inductive reachable : Process → Prop :=
  | reachable_init w p :
      __init__ {| self := blank; env := w |} = (Ok tt, p) → reachable p
  | reachable_step p a :
      reachable p → reachable (mainloop_step p a).

(** The description store as a starting application reads it:
    [relay_descriptions = {}], then [load_descriptions]. *)
Definition load (w : World) : Result (gmap string string) :=
  match load_descriptions {| self := blank; env := w |} with
  | (Ok _, p) => Ok (relay_descriptions (self p))
  | (Raise e, _) => Raise e
  end.

End MainLoop.

(** What a row shows. *)
Definition indicator_color (app : RelayControlApp) (serial_num : string) : option string :=
  status_circles app !! serial_num.

Definition button_label (app : RelayControlApp) (serial_num : string) : option string :=
  match relay_frames app !! serial_num with
  | Some (Button text :: _) => Some text
  | _ => None
  end.

(** The [ser.write] calls of a trace. *)
Definition writes (t : list Event) : list (string * list byte) :=
  omap (λ e, match e with EvWrite port data => Some (port, data) | _ => None end) t.

Definition opens (t : list Event) : list string :=
  omap (λ e, match e with EvOpen port _ _ => Some port | _ => None end) t.

Definition error_dialogs (t : list Event) : list (string * string) :=
  omap (λ e, match e with EvShowError title msg => Some (title, msg) | _ => None end) t.

Definition file_writes (t : list Event) : list (string * string) :=
  omap (λ e, match e with EvFileWrite path c => Some (path, c) | _ => None end) t.

(** ** A JSON codec for the store

    An instance of [Json] for objects from strings to strings: the printer
    produces the text of [json.dump(d, f, indent=2)] (two-space indent,
    [", "]-free item separator, every character outside printable ASCII
    escaped), the reader accepts JSON objects of strings with any JSON
    whitespace and every JSON string escape below code point 256. A
    repeated key keeps its last value, as in Python. *)
Module PyJson.

Definition dquote : ascii := "034"%char.
Definition backslash : ascii := "092"%char.
Definition lf : ascii := "010"%char.
Definition space : ascii := "032"%char.

Definition hex_digit (n : nat) : ascii :=
  if n <? 10 then ascii_of_nat (48 + n) else ascii_of_nat (87 + n).

Definition hex_value (c : ascii) : option nat :=
  let n := nat_of_ascii c in
  if (48 <=? n) && (n <=? 57) then Some (n - 48)
  else if (97 <=? n) && (n <=? 102) then Some (n - 87)
  else if (65 <=? n) && (n <=? 70) then Some (n - 55)
  else None.

(** The text of one character inside a JSON string. *)
Definition escape_char (c : ascii) : list ascii :=
  let n := nat_of_ascii c in
  if n =? 34 then [backslash; dquote]
  else if n =? 92 then [backslash; backslash]
  else if n =? 10 then [backslash; "n"%char]
  else if n =? 13 then [backslash; "r"%char]
  else if n =? 9 then [backslash; "t"%char]
  else if n =? 8 then [backslash; "b"%char]
  else if n =? 12 then [backslash; "f"%char]
  else if (n <? 32) || (126 <? n) then
    [backslash; "u"%char; "0"%char; "0"%char; hex_digit (n / 16); hex_digit (n mod 16)]
  else [c].

Definition dump_string (s : string) : list ascii :=
  dquote :: flat_map escape_char (String.list_ascii_of_string s) ++ [dquote].

Definition dump_item (kv : string * string) : list ascii :=
  dump_string kv.1 ++ [":"%char; space] ++ dump_string kv.2.

(** A member after the first: the separator, the indent, the member. *)
Definition sep_item (kv : string * string) : list ascii :=
  [","%char; lf; space; space] ++ dump_item kv.

Definition dump_items (items : list (string * string)) : list ascii :=
  match items with
  | [] => ["{"%char; "}"%char]
  | first :: rest =>
      ["{"%char; lf; space; space] ++ dump_item first ++
      flat_map sep_item rest ++ [lf; "}"%char]
  end.

Definition is_ws (c : ascii) : bool :=
  let n := nat_of_ascii c in
  (n =? 32) || (n =? 9) || (n =? 10) || (n =? 13).

Fixpoint skip_ws (s : list ascii) : list ascii :=
  match s with
  | c :: s' => if is_ws c then skip_ws s' else s
  | [] => []
  end.

(** The character a one-letter escape stands for. *)
Definition unescape (e : ascii) : option ascii :=
  let n := nat_of_ascii e in
  if n =? 34 then Some dquote
  else if n =? 92 then Some backslash
  else if n =? 47 then Some "/"%char
  else if n =? 110 then Some lf
  else if n =? 114 then Some "013"%char
  else if n =? 116 then Some "009"%char
  else if n =? 98 then Some "008"%char
  else if n =? 102 then Some "012"%char
  else None.

Definition hex4 (a b c d : ascii) : option nat :=
  a ← hex_value a ; b ← hex_value b ; c ← hex_value c ; d ← hex_value d ;
  Some (((a * 16 + b) * 16 + c) * 16 + d).

(** The characters of a string literal after its opening quote, and
    what follows its closing quote. *)
Fixpoint parse_chars (s : list ascii) : option (list ascii * list ascii) :=
  match s with
  | [] => None
  | c :: s1 =>
      if nat_of_ascii c =? 34 then Some ([], s1)
      else if nat_of_ascii c =? 92 then
        match s1 with
        | [] => None
        | e :: s2 =>
            if nat_of_ascii e =? 117 then
              match s2 with
              | h1 :: h2 :: h3 :: h4 :: s3 =>
                  match hex4 h1 h2 h3 h4 with
                  | Some n =>
                      if n <? 256 then
                        match parse_chars s3 with
                        | Some (cs, rest) => Some (ascii_of_nat n :: cs, rest)
                        | None => None
                        end
                      else None
                  | None => None
                  end
              | _ => None
              end
            else
              match unescape e with
              | Some c' =>
                  match parse_chars s2 with
                  | Some (cs, rest) => Some (c' :: cs, rest)
                  | None => None
                  end
              | None => None
              end
        end
      else if nat_of_ascii c <? 32 then None
      else
        match parse_chars s1 with
        | Some (cs, rest) => Some (c :: cs, rest)
        | None => None
        end
  end.

Definition parse_string (s : list ascii) : option (string * list ascii) :=
  match s with
  | c :: s1 =>
      if nat_of_ascii c =? 34 then
        match parse_chars s1 with
        | Some (cs, rest) => Some (String.string_of_list_ascii cs, rest)
        | None => None
        end
      else None
  | [] => None
  end.

(** [d[k] = v] for a member [(k, v)]. *)
Definition put (m : gmap string string) (kv : string * string) : gmap string string :=
  <[kv.1 := kv.2]> m.

(** The members of an object, from the first key to the closing brace. *)
Fixpoint parse_members (fuel : nat) (s : list ascii) (acc : gmap string string)
    : option (gmap string string * list ascii) :=
  match fuel with
  | 0 => None
  | S fuel =>
      match parse_string (skip_ws s) with
      | Some (k, s1) =>
          match skip_ws s1 with
          | c :: s2 =>
              if nat_of_ascii c =? 58 then
                match parse_string (skip_ws s2) with
                | Some (v, s3) =>
                    match skip_ws s3 with
                    | d :: s4 =>
                        if nat_of_ascii d =? 44 then parse_members fuel s4 (put acc (k, v))
                        else if nat_of_ascii d =? 125 then Some (put acc (k, v), s4)
                        else None
                    | [] => None
                    end
                | None => None
                end
              else None
          | [] => None
          end
      | None => None
      end
  end.

Definition parse_object (s : list ascii) : option (gmap string string) :=
  match skip_ws s with
  | c :: s1 =>
      if nat_of_ascii c =? 123 then
        match skip_ws s1 with
        | d :: s2 =>
            if nat_of_ascii d =? 125 then
              match skip_ws s2 with [] => Some ∅ | _ => None end
            else
              match parse_members (length s1) s1 ∅ with
              | Some (m, s3) => match skip_ws s3 with [] => Some m | _ => None end
              | None => None
              end
        | [] => None
        end
      else None
  | [] => None
  end.

Definition dumps (d : gmap string string) : string :=
  String.string_of_list_ascii (dump_items (map_to_list d)).

Definition loads (s : string) : option (gmap string string) :=
  parse_object (String.list_ascii_of_string s).

Global Instance json : Json := {| json_dumps := dumps; json_loads := loads |}.

End PyJson.


(** ** Notions used by the statements *)

(** A run of [send_command] calls, one after the other. *)
Fixpoint send_commands (calls : list (string * bool)) : M World unit :=
  match calls with
  | [] => mret tt
  | (port, state) :: rest => send_command port state ;; send_commands rest
  end.

(** The two command frames of the relay board. *)
Definition is_frame (data : list byte) : Prop :=
  data = [xff; x01] ∨ data = [xff; x00].

Fixpoint all_space (s : string) : bool :=
  match s with
  | EmptyString => true
  | String c s' => py_isspace c && all_space s'
  end.

(** No white space at either end. *)
Definition stripped (s : string) : Prop :=
  (∀ c s', s = String c s' → py_isspace c = false) ∧
  (∀ s' c, s = s' +:+ String c EmptyString → py_isspace c = false).

(** A row shows what its state says: red and OFF, or green and ON. *)
Definition row_consistent (app : RelayControlApp) (serial_num : string) : Prop :=
  ∀ b : bool, relay_states app !! serial_num = Some b →
    status_circles app !! serial_num = Some (if b then "green" else "red") ∧
    (∃ rest, relay_frames app !! serial_num =
               Some (Button (if b then "ON" else "OFF") :: rest)).

Definition ui_consistent (app : RelayControlApp) : Prop :=
  ∀ serial_num, row_consistent app serial_num.

(** Two applications that agree on what the rows show. *)
Definition same_rows (a a' : RelayControlApp) : Prop :=
  relay_states a' = relay_states a ∧
  status_circles a' = status_circles a ∧
  relay_frames a' = relay_frames a.

Section Synced.
Context `{Json}.

(** The description file holds the in-memory descriptions. *)
Definition store_synced (p : Process) : Prop :=
  match files (env p) !! DESCRIPTION_FILE with
  | Some content => json_loads content = Some (relay_descriptions (self p))
  | None => relay_descriptions (self p) = ∅
  end.
End Synced.

(** ** A test bench

    One relay board on COM3, a second adapter that reports the same
    serial number on COM4, and an unrelated serial device. *)

Definition relay_port : ListPortInfo :=
  {| device := "COM3";
     hwid := "USB VID:PID=0403:6001 SER=A50285BI";
     serial_number := "A50285BI" |}.

Definition clone_port : ListPortInfo :=
  {| device := "COM4";
     hwid := "USB VID:PID=0403:6001 SER=A50285BI";
     serial_number := "A50285BI" |}.

Definition other_port : ListPortInfo :=
  {| device := "COM7";
     hwid := "USB VID:PID=1A86:7000";
     serial_number := "5523" |}.

Definition bench (script : list SerialOutcome) (fs : gmap string string) : World :=
  {| comports := [relay_port; other_port]; serial_script := script;
     files := fs; trace := [] |}.

Definition clone_bench : World :=
  {| comports := [relay_port; clone_port]; serial_script := [];
     files := ∅; trace := [] |}.

Definition pump_store : gmap string string :=
  {[ DESCRIPTION_FILE := PyJson.dumps {[ "A50285BI" := "Pump relay" ]} ]}.

Definition broken_store : gmap string string :=
  {[ DESCRIPTION_FILE := "{ not json" ]}.

(** The application after a normal start in [w]. *)
Definition started (w : World) : Process :=
  (__init__ {| self := blank; env := w |}).2.

(** ** More observations of a trace *)

(** The [serial.Serial(...)] calls of a trace, with their arguments. *)
Definition open_calls (t : list Event) : list (string * Z * Z) :=
  omap (λ e, match e with
             | EvOpen port baud timeout => Some (port, baud, timeout)
             | _ => None
             end) t.

(** The ports closed in a trace. *)
Definition closes (t : list Event) : list string :=
  omap (λ e, match e with EvClose port => Some port | _ => None end) t.

(** A bench with two relay boards. *)
Definition second_relay : ListPortInfo :=
  {| device := "COM5";
     hwid := "USB VID:PID=0403:6001 SER=B0031X77";
     serial_number := "B0031X77" |}.

Definition double_bench (script : list SerialOutcome) : World :=
  {| comports := [relay_port; second_relay]; serial_script := script;
     files := ∅; trace := [] |}.

(** * Properties *)

(** ** Substring test *)

Lemma prefix_spec (s1 s2 : string) :
  String.prefix s1 s2 = true ↔ ∃ b, s2 = s1 +:+ b.
Proof.
  revert s2. induction s1 as [|a s1 IH]; intros s2.
  - destruct s2; simpl; split; eauto.
  - destruct s2 as [|c s2]; simpl.
    + split; [done | intros [b Hb]; discriminate].
    + destruct (ascii_dec a c) as [->|Hne].
      * rewrite IH. split; intros [b Hb]; exists b; simpl in *; congruence.
      * split; [done | intros [b Hb]; simpl in Hb; congruence].
Qed.

(** [needle in hay] holds exactly when [hay] is some text, then [needle],
    then some text. *)
Lemma str_in_spec (needle hay : string) :
  str_in needle hay = true ↔ ∃ a b, hay = a +:+ needle +:+ b.
Proof.
  induction hay as [|c hay IH]; cbn [str_in].
  - rewrite orb_false_r, prefix_spec. split.
    + intros [b Hb]. by exists "", b.
    + intros [a [b Hab]]. destruct a; [by exists b | discriminate].
  - rewrite orb_true_iff, prefix_spec, IH. split.
    + intros [[b Hb] | [a [b Hab]]].
      * by exists "", b.
      * exists (String c a), b. simpl. by rewrite Hab.
    + intros [a [b Hab]]. destruct a as [|c' a]; simpl in Hab.
      * left. by exists b.
      * right. exists a, b. congruence.
Qed.

(** ** Port discovery *)

Lemma find_relay_ports_run (w : World) :
  find_relay_ports w = (Ok (foldl relay_step ∅ (comports w)), w).
Proof. reflexivity. Qed.

(** A key of the scan is bound by the last matching port that reports it. *)
Lemma relay_scan_snoc (acc : gmap string string) (ports : list ListPortInfo)
    (p : ListPortInfo) (k : string) :
  foldl relay_step acc (ports ++ [p]) !! k =
    if str_in PRODUCT_ID (hwid p) && bool_decide (serial_number p = k)
    then Some (device p)
    else foldl relay_step acc ports !! k.
Proof.
  rewrite foldl_app. simpl. unfold relay_step at 1.
  destruct (str_in PRODUCT_ID (hwid p)); simpl; [|done].
  case_bool_decide as Hk.
  - subst k. by rewrite lookup_insert_eq.
  - by rewrite lookup_insert_ne.
Qed.

Lemma relay_scan_other (acc : gmap string string) (ports : list ListPortInfo) (k : string) :
  (∀ q, q ∈ ports → str_in PRODUCT_ID (hwid q) = true → serial_number q ≠ k) →
  foldl relay_step acc ports !! k = acc !! k.
Proof.
  induction ports as [|p ports IH] using rev_ind; intros Hq; [done|].
  rewrite relay_scan_snoc.
  destruct (str_in PRODUCT_ID (hwid p)) eqn:Hp; simpl.
  - case_bool_decide as Hk.
    + exfalso. eapply (Hq p); [|done|done].
      apply elem_of_app. right. by apply list_elem_of_singleton.
    + apply IH. intros q Hin. apply Hq, elem_of_app. by left.
  - apply IH. intros q Hin. apply Hq, elem_of_app. by left.
Qed.

(** A serial number is a key of the result exactly when some listed port
    reporting it matches. *)
Lemma relay_scan_key (ports : list ListPortInfo) (k : string) :
  is_Some (foldl relay_step ∅ ports !! k) ↔
  ∃ p, p ∈ ports ∧ serial_number p = k ∧ str_in PRODUCT_ID (hwid p) = true.
Proof.
  induction ports as [|p ports IH] using rev_ind.
  - simpl. rewrite lookup_empty. split.
    + by intros [? ?].
    + intros (p & Hp & _). by apply not_elem_of_nil in Hp.
  - rewrite relay_scan_snoc.
    assert (Hold : (∃ q, q ∈ ports ∧ serial_number q = k ∧
                         str_in PRODUCT_ID (hwid q) = true) →
                   ∃ q, q ∈ ports ++ [p] ∧ serial_number q = k ∧
                        str_in PRODUCT_ID (hwid q) = true).
    { intros (q & Hq & Hqk & Hqm). exists q. split; [|done].
      apply elem_of_app. by left. }
    assert (Hnew : (∃ q, q ∈ ports ++ [p] ∧ serial_number q = k ∧
                         str_in PRODUCT_ID (hwid q) = true) →
                   (serial_number p = k ∧ str_in PRODUCT_ID (hwid p) = true) ∨
                   ∃ q, q ∈ ports ∧ serial_number q = k ∧
                        str_in PRODUCT_ID (hwid q) = true).
    { intros (q & Hq & Hqk & Hqm).
      apply elem_of_app in Hq as [Hq | Hq]; [right; eauto|].
      apply list_elem_of_singleton in Hq. subst q. by left. }
    destruct (str_in PRODUCT_ID (hwid p)) eqn:Hp; simpl.
    + case_bool_decide as Hk.
      * split; [|eauto]. intros _. exists p. split; [|done].
        apply elem_of_app. right. by apply list_elem_of_singleton.
      * rewrite IH. split; [done|]. intros Hq.
        destruct (Hnew Hq) as [[Hpk _] | Hq']; [done | done].
    + rewrite IH. split; [done|]. intros Hq.
      destruct (Hnew Hq) as [[_ Hpm] | Hq']; [discriminate | done].
Qed.

(** C3 (as amended): a port whose serial number no other matching port of
    the enumeration reports appears in the result of [find_relay_ports],
    keyed by its serial number and mapped to its device path, if and only
    if its hardware id contains "6001"; when it does not contain it, its
    serial number is not a key of the result at all. *)
Theorem find_relay_ports_unique_serial (w : World) (before after : list ListPortInfo)
    (p : ListPortInfo) :
  comports w = before ++ p :: after →
  (∀ q, q ∈ before ++ after →
        str_in PRODUCT_ID (hwid q) = true → serial_number q ≠ serial_number p) →
  ∃ relays, find_relay_ports w = (Ok relays, w) ∧
    (relays !! serial_number p = Some (device p) ↔
       ∃ a b, hwid p = a +:+ "6001" +:+ b) ∧
    ((¬ ∃ a b, hwid p = a +:+ "6001" +:+ b) → relays !! serial_number p = None).
Proof.
  intros Hports Huniq. eexists. split; [apply find_relay_ports_run|].
  rewrite Hports.
  replace (before ++ p :: after) with ((before ++ [p]) ++ after)
    by (by rewrite <- app_assoc).
  rewrite foldl_app, relay_scan_other
    by (intros q Hq; apply Huniq; set_solver).
  rewrite relay_scan_snoc, bool_decide_true, andb_true_r by done.
  change "6001" with PRODUCT_ID. rewrite <- str_in_spec.
  destruct (str_in PRODUCT_ID (hwid p)) eqn:Hp.
  - split; [done | intros Hn; by destruct Hn].
  - rewrite relay_scan_other, lookup_empty
      by (intros q Hq; apply Huniq; set_solver).
    split; [split; discriminate | done].
Qed.

(** ** The command sender *)

(** What one call of [send_command] does, by what the hardware does. *)
Lemma send_command_run (port : string) (state : bool) (w : World) :
  send_command port state w =
    (Ok tt,
     {| comports := comports w;
        serial_script := tail (serial_script w);
        files := files w;
        trace := trace w ++
          EvOpen port 9600 1 ::
          match (next_outcome w).1 with
          | SerialOK =>
              [EvWrite port (if state then [xff; x01] else [xff; x00]); EvClose port]
          | OpenFails msg =>
              [EvShowError "Error" ("Failed to send command: " +:+ msg)]
          | WriteFails msg =>
              [EvWrite port (if state then [xff; x01] else [xff; x00]); EvClose port;
               EvShowError "Error" ("Failed to send command: " +:+ msg)]
          end |}).
Proof.
  destruct w as [cp script fs tr]. unfold next_outcome. simpl.
  destruct script as [|[|msg|msg] rest]; cbv -[app String.append]; simpl;
    rewrite <- ?app_assoc; reflexivity.
Qed.

Lemma send_command_returns (port : string) (state : bool) (w : World) :
  (send_command port state w).1 = Ok tt.
Proof. by rewrite send_command_run. Qed.

Lemma send_command_env (port : string) (state : bool) (w : World) :
  comports (send_command port state w).2 = comports w ∧
  files (send_command port state w).2 = files w.
Proof. by rewrite send_command_run. Qed.

Lemma writes_app (t1 t2 : list Event) : writes (t1 ++ t2) = writes t1 ++ writes t2.
Proof. apply omap_app. Qed.

Lemma opens_app (t1 t2 : list Event) : opens (t1 ++ t2) = opens t1 ++ opens t2.
Proof. apply omap_app. Qed.

Lemma error_dialogs_app (t1 t2 : list Event) :
  error_dialogs (t1 ++ t2) = error_dialogs t1 ++ error_dialogs t2.
Proof. apply omap_app. Qed.

Lemma send_command_writes_one (port : string) (state : bool) (w : World) :
  writes (trace (send_command port state w).2) =
    writes (trace w) ++
    match (next_outcome w).1 with
    | OpenFails _ => []
    | _ => [(port, if state then [xff; x01] else [xff; x00])]
    end.
Proof.
  rewrite send_command_run. simpl. rewrite writes_app. f_equal.
  by destruct (next_outcome w).1.
Qed.

Lemma send_commands_cons (port : string) (state : bool) (rest : list (string * bool))
    (w : World) :
  send_commands ((port, state) :: rest) w =
    send_commands rest (send_command port state w).2.
Proof.
  simpl. unfold mbind, M_bind.
  pose proof (send_command_returns port state w) as Hr.
  destruct (send_command port state w) as [r w']. simpl in Hr. by subst r.
Qed.

Lemma send_commands_writes (calls : list (string * bool)) (w : World) :
  ∃ new, writes (trace (send_commands calls w).2) = writes (trace w) ++ new ∧
         length new ≤ length calls ∧
         Forall (λ pd, is_frame pd.2) new.
Proof.
  revert w. induction calls as [|[port state] rest IH]; intros w.
  - exists []. simpl. by rewrite app_nil_r.
  - rewrite send_commands_cons.
    destruct (IH (send_command port state w).2) as (new & Hw & Hlen & Hall).
    rewrite Hw, send_command_writes_one, <- app_assoc.
    eexists. split; [done|].
    destruct (next_outcome w).1; simpl; split; try lia; try done;
      (constructor; [|done]); destruct state; simpl; [by left | by right | by left | by right].
Qed.

(** C2: [send_command(port, True)] writes exactly the bytes FF 01 and
    [send_command(port, False)] exactly FF 00, in one write on the port it
    was given (nothing at all when the port cannot be opened); and after
    any number of calls every write the program made is one of these two
    frames, at most one per call. *)
Theorem send_command_writes_exact_frames :
  (∀ (port : string) (w : World),
     writes (trace (send_command port true w).2) =
       writes (trace w) ++
       match (next_outcome w).1 with
       | OpenFails _ => []
       | _ => [(port, [xff; x01])]
       end ∧
     writes (trace (send_command port false w).2) =
       writes (trace w) ++
       match (next_outcome w).1 with
       | OpenFails _ => []
       | _ => [(port, [xff; x00])]
       end) ∧
  (∀ (calls : list (string * bool)) (w : World),
     ∃ new, writes (trace (send_commands calls w).2) = writes (trace w) ++ new ∧
            length new ≤ length calls ∧
            Forall (λ pd, pd.2 = [xff; x01] ∨ pd.2 = [xff; x00]) new).
Proof.
  split.
  - intros port w. split; apply send_command_writes_one.
  - apply send_commands_writes.
Qed.

Lemma send_command_dialogs (port : string) (state : bool) (w : World) :
  error_dialogs (trace (send_command port state w).2) =
    error_dialogs (trace w) ++
    match (next_outcome w).1 with
    | SerialOK => []
    | OpenFails msg | WriteFails msg =>
        [("Error", "Failed to send command: " +:+ msg)]
    end.
Proof.
  rewrite send_command_run. simpl. rewrite error_dialogs_app.
  f_equal. by destruct (next_outcome w).1.
Qed.

(** C7 (as amended): [send_command] never raises: in every environment it
    returns normally, and with the same value whether or not it failed, so
    the caller is told nothing. It tries the port once. A failure to open
    or to write becomes exactly one error dialog titled "Error" whose text
    is "Failed to send command: " followed by the underlying message; a
    success shows no dialog. *)
Theorem send_command_never_raises (port : string) (state : bool) (w : World) :
  ∃ w', send_command port state w = (Ok tt, w') ∧
    opens (trace w') = opens (trace w) ++ [port] ∧
    error_dialogs (trace w') =
      error_dialogs (trace w) ++
      match (next_outcome w).1 with
      | SerialOK => []
      | OpenFails msg | WriteFails msg =>
          [("Error", "Failed to send command: " +:+ msg)]
      end.
Proof.
  exists (send_command port state w).2.
  split; [by rewrite send_command_run|]. split.
  - rewrite send_command_run. simpl. rewrite opens_app. f_equal.
    by destruct (next_outcome w).1.
  - apply send_command_dialogs.
Qed.

(** ** str.strip *)

Lemma append_empty_r (s : string) : s +:+ "" = s.
Proof. induction s as [|c s IH]; simpl; congruence. Qed.

Lemma append_assoc (s t u : string) : (s +:+ t) +:+ u = s +:+ t +:+ u.
Proof. induction s as [|c s IH]; simpl; congruence. Qed.

Lemma append_snoc_not_empty (s : string) (c : ascii) : s +:+ String c "" ≠ "".
Proof. by destruct s. Qed.

Lemma all_space_app (s t : string) :
  all_space (s +:+ t) = all_space s && all_space t.
Proof.
  induction s as [|c s IH]; simpl; [done|]. by rewrite IH, andb_assoc.
Qed.

Lemma lstrip_all_space (s : string) : all_space s = true → lstrip s = "".
Proof.
  induction s as [|c s IH]; simpl; [done|].
  intros [Hc Hs]%andb_true_iff. rewrite Hc. auto.
Qed.

Lemma lstrip_decomp (s : string) :
  ∃ l, s = l +:+ lstrip s ∧ all_space l = true.
Proof.
  induction s as [|c s (l & Hl & Hsp)]; simpl.
  - by exists "".
  - destruct (py_isspace c) eqn:Hc.
    + exists (String c l). simpl. rewrite Hc, Hsp. split; [congruence | done].
    + by exists "".
Qed.

Lemma lstrip_head (s : string) (c : ascii) (s' : string) :
  lstrip s = String c s' → py_isspace c = false.
Proof.
  induction s as [|a s IH]; simpl; [done|].
  destruct (py_isspace a) eqn:Ha; [done|]. congruence.
Qed.

Lemma lstrip_app (s t : string) :
  lstrip (s +:+ t) = if all_space s then lstrip t else lstrip s +:+ t.
Proof.
  induction s as [|c s IH]; simpl; [done|].
  destruct (py_isspace c); simpl; [done | done].
Qed.

Lemma rstrip_decomp (s : string) :
  ∃ r, s = rstrip s +:+ r ∧ all_space r = true.
Proof.
  induction s as [|c s (r & Hr & Hsp)]; simpl.
  - by exists "".
  - destruct (rstrip s) as [|b t] eqn:Hrs.
    + simpl in Hr. subst r. destruct (py_isspace c) eqn:Hc.
      * exists (String c s). simpl. by rewrite Hc, Hsp.
      * exists s. by simpl.
    + exists r. simpl in *. split; congruence.
Qed.

Lemma rstrip_last (s s' : string) (c : ascii) :
  rstrip s = s' +:+ String c "" → py_isspace c = false.
Proof.
  revert s'. induction s as [|a s IH]; intros s'; simpl.
  - intros Heq. symmetry in Heq. by apply append_snoc_not_empty in Heq.
  - destruct (rstrip s) as [|b t] eqn:Hrs.
    + destruct (py_isspace a) eqn:Ha.
      * intros Heq. symmetry in Heq. by apply append_snoc_not_empty in Heq.
      * destruct s' as [|x s'']; simpl; intros Heq.
        -- by injection Heq as ->.
        -- injection Heq as _ Heq. symmetry in Heq.
           by apply append_snoc_not_empty in Heq.
    + destruct s' as [|x s'']; simpl; intros Heq; [discriminate|].
      injection Heq as -> Heq. by apply (IH s'').
Qed.

(** [rstrip] keeps the first character of what it keeps. *)
Lemma rstrip_head (s : string) (c : ascii) (t : string) :
  rstrip s = String c t → ∃ s', s = String c s'.
Proof.
  destruct s as [|a s]; simpl; [done|].
  destruct (rstrip s); [destruct (py_isspace a)|]; intros Heq;
    try discriminate; injection Heq as -> _; eauto.
Qed.

Lemma rstrip_snoc_space (s : string) (c : ascii) :
  py_isspace c = true → rstrip (s +:+ String c "") = rstrip s.
Proof.
  intros Hc. induction s as [|a s IH]; simpl.
  - by rewrite Hc.
  - by rewrite IH.
Qed.

Lemma strip_decomp (s : string) :
  ∃ l r, s = l +:+ strip s +:+ r ∧ all_space l = true ∧ all_space r = true.
Proof.
  destruct (lstrip_decomp s) as (l & Hl & Hlsp).
  destruct (rstrip_decomp (lstrip s)) as (r & Hr & Hrsp).
  exists l, r. unfold strip. split; [|done]. by rewrite <- Hr.
Qed.

Lemma strip_stripped (s : string) : stripped (strip s).
Proof.
  unfold strip. split.
  - intros c s' Heq. destruct (rstrip_head _ _ _ Heq) as [s'' Hs''].
    by eapply lstrip_head.
  - intros s' c Heq. by eapply rstrip_last.
Qed.

(** The newline Tk appends to the text is stripped with the rest. *)
Lemma strip_Text_get_all (content : string) :
  strip (Text_get_all content) = strip content.
Proof.
  unfold strip, Text_get_all. rewrite lstrip_app.
  destruct (all_space content) eqn:Hsp.
  - by rewrite (lstrip_all_space content).
  - by apply rstrip_snoc_space.
Qed.

(** ** The JSON codec reads back what it prints *)

Module PyJsonFacts.
Import PyJson.

Lemma parse_chars_escape_char (c : ascii) (rest : list ascii) :
  parse_chars (escape_char c ++ rest) =
    match parse_chars rest with
    | Some (cs, r) => Some (c :: cs, r)
    | None => None
    end.
Proof.
  destruct c as [[] [] [] [] [] [] [] []]; reflexivity.
Qed.

Lemma parse_chars_escape (s rest : list ascii) :
  parse_chars (flat_map escape_char s ++ dquote :: rest) = Some (s, rest).
Proof.
  induction s as [|c s IH]; [done|].
  cbn [flat_map]. rewrite <- app_assoc, parse_chars_escape_char. by rewrite IH.
Qed.

Lemma parse_string_dump (s : string) (rest : list ascii) :
  parse_string (dump_string s ++ rest) = Some (s, rest).
Proof.
  unfold dump_string. cbn [app parse_string].
  change (nat_of_ascii dquote =? 34) with true. cbn match.
  rewrite <- app_assoc. cbn [app].
  by rewrite parse_chars_escape, String.string_of_list_ascii_of_string.
Qed.

Lemma skip_ws_app (pre s : list ascii) :
  Forall (λ c, is_ws c = true) pre → skip_ws (pre ++ s) = skip_ws s.
Proof.
  induction 1 as [|c pre Hc _ IH]; [done|]. cbn [app skip_ws]. by rewrite Hc.
Qed.

Lemma skip_ws_dump_string (s : string) (rest : list ascii) :
  skip_ws (dump_string s ++ rest) = dump_string s ++ rest.
Proof. reflexivity. Qed.

Lemma skip_ws_dump_item (kv : string * string) (rest : list ascii) :
  skip_ws (dump_item kv ++ rest) = dump_item kv ++ rest.
Proof. reflexivity. Qed.

Lemma parse_members_S (fuel : nat) (s : list ascii) (acc : gmap string string) :
  parse_members (S fuel) s acc =
    match parse_string (skip_ws s) with
    | Some (k, s1) =>
        match skip_ws s1 with
        | c :: s2 =>
            if nat_of_ascii c =? 58 then
              match parse_string (skip_ws s2) with
              | Some (v, s3) =>
                  match skip_ws s3 with
                  | d :: s4 =>
                      if nat_of_ascii d =? 44 then parse_members fuel s4 (put acc (k, v))
                      else if nat_of_ascii d =? 125 then Some (put acc (k, v), s4)
                      else None
                  | [] => None
                  end
              | None => None
              end
            else None
        | [] => None
        end
    | None => None
    end.
Proof. reflexivity. Qed.

(** One member is read, whatever white space precedes it. *)
Lemma parse_members_item (fuel : nat) (pre : list ascii) (kv : string * string)
    (tail : list ascii) (acc : gmap string string) :
  Forall (λ c, is_ws c = true) pre →
  parse_members (S fuel) (pre ++ dump_item kv ++ tail) acc =
    match skip_ws tail with
    | d :: s4 =>
        if nat_of_ascii d =? 44 then parse_members fuel s4 (put acc kv)
        else if nat_of_ascii d =? 125 then Some (put acc kv, s4)
        else None
    | [] => None
    end.
Proof.
  intros Hpre. rewrite parse_members_S, skip_ws_app, skip_ws_dump_item by done.
  unfold dump_item. rewrite <- !app_assoc, parse_string_dump.
  cbn [app skip_ws]. change (is_ws ":") with false. cbn match.
  change (nat_of_ascii ":" =? 58) with true. cbn match.
  cbn [skip_ws]. change (is_ws space) with true. cbn match.
  by rewrite skip_ws_dump_string, parse_string_dump.
Qed.

Lemma parse_members_items (rest : list (string * string)) :
  ∀ (first : string * string) (acc : gmap string string) (fuel : nat)
    (pre final : list ascii),
    length rest < fuel →
    Forall (λ c, is_ws c = true) pre →
    parse_members fuel
      (pre ++ dump_item first ++ flat_map sep_item rest ++ lf :: "}"%char :: final) acc
    = Some (foldl put (put acc first) rest, final).
Proof.
  induction rest as [|next rest IH]; intros first acc fuel pre final Hfuel Hpre;
    (destruct fuel as [|fuel]; [simpl in Hfuel; lia|]).
  - cbn [flat_map app foldl]. by rewrite parse_members_item.
  - cbn [flat_map foldl]. rewrite parse_members_item by done.
    unfold sep_item at 1. rewrite <- !app_assoc. cbn [app skip_ws].
    change (is_ws ",") with false. cbn match.
    change (nat_of_ascii "," =? 44) with true. cbn match.
    apply (IH next (put acc first) fuel [lf; space; space] final).
    + simpl in Hfuel. lia.
    + by repeat constructor.
Qed.

Lemma sep_items_length (rest : list (string * string)) :
  length rest ≤ length (flat_map sep_item rest).
Proof.
  induction rest as [|kv rest IH]; [done|].
  cbn [flat_map length]. rewrite length_app.
  assert (1 ≤ length (sep_item kv)) by (unfold sep_item; cbn [app length]; lia).
  lia.
Qed.

Lemma parse_object_brace (s1 : list ascii) :
  parse_object ("{"%char :: s1) =
    match skip_ws s1 with
    | d :: s2 =>
        if nat_of_ascii d =? 125 then
          match skip_ws s2 with [] => Some ∅ | _ => None end
        else
          match parse_members (length s1) s1 ∅ with
          | Some (m, s3) => match skip_ws s3 with [] => Some m | _ => None end
          | None => None
          end
    | [] => None
    end.
Proof. reflexivity. Qed.

Lemma skip_ws_first_member (kv : string * string) (body : list ascii) :
  ∃ t, skip_ws ([lf; space; space] ++ dump_item kv ++ body) = dquote :: t.
Proof. eexists. reflexivity. Qed.

Lemma parse_object_dump_items (items : list (string * string)) :
  parse_object (dump_items items) = Some (foldl put ∅ items).
Proof.
  destruct items as [|first rest]; [done|].
  change (dump_items (first :: rest))
    with ("{"%char :: ([lf; space; space] ++ dump_item first ++
                       flat_map sep_item rest ++ lf :: "}"%char :: [])).
  rewrite parse_object_brace.
  destruct (skip_ws_first_member first (flat_map sep_item rest ++ [lf; "}"%char]))
    as [t ->].
  change (nat_of_ascii dquote =? 125) with false. cbn match.
  rewrite parse_members_items; [done | | by repeat constructor].
  pose proof (sep_items_length rest). rewrite !length_app. simpl. lia.
Qed.

Lemma foldl_put_list_to_map (l : list (string * string)) :
  ∀ acc : gmap string string,
    NoDup l.*1 → foldl put acc l = list_to_map l ∪ acc.
Proof.
  induction l as [|[k v] l IH]; intros acc Hnd.
  - simpl. by rewrite (left_id_L ∅ (∪)).
  - apply NoDup_cons in Hnd as [Hk Hnd].
    cbn [foldl]. rewrite IH by done. unfold put. cbn [fst snd].
    rewrite list_to_map_cons, <- insert_union_l.
    symmetry. apply insert_union_r. by apply not_elem_of_list_to_map_1.
Qed.

Lemma foldl_put_map_to_list (d : gmap string string) :
  foldl put ∅ (map_to_list d) = d.
Proof.
  rewrite foldl_put_list_to_map by apply NoDup_fst_map_to_list.
  by rewrite (right_id_L ∅ (∪)), list_to_map_to_list.
Qed.

Lemma loads_dumps (d : gmap string string) : loads (dumps d) = Some d.
Proof.
  unfold loads, dumps.
  by rewrite String.list_ascii_of_string_of_list_ascii, parse_object_dump_items,
    foldl_put_map_to_list.
Qed.

Global Instance lawful : JsonLawful.
Proof. exact loads_dumps. Qed.

End PyJsonFacts.

(** ** The controller *)

Ltac unfold_monad :=
  unfold mbind, M_bind, mret, M_ret, raise, get_self, getitem, list_getitem,
    modify_self, modify, liftW, config_text in *.

Lemma update_ui_run (p : Process) (sn : string) (b : bool) (t : string)
    (rest : list Widget) :
  relay_states (self p) !! sn = Some b →
  is_Some (status_circles (self p) !! sn) →
  relay_frames (self p) !! sn = Some (Button t :: rest) →
  update_ui sn p =
    (Ok tt,
     {| self := set_relay_frames <[sn := Button (if b then "ON" else "OFF") :: rest]>
                  (set_status_circles <[sn := if b then "green" else "red"]> (self p));
        env := env p |}).
Proof.
  intros Hst [c Hc] Hfr. unfold update_ui. unfold_monad. simpl.
  rewrite Hst, Hc. simpl. rewrite Hfr. reflexivity.
Qed.

Lemma toggle_relay_no_row (p : Process) (sn : string) :
  relay_states (self p) !! sn = None →
  toggle_relay sn p = (Raise (KeyError sn), p).
Proof.
  intros Hst. unfold toggle_relay. unfold_monad. simpl. by rewrite Hst.
Qed.

Lemma toggle_relay_unselected (p : Process) (sn : string) (b : bool) :
  relay_states (self p) !! sn = Some b →
  selected_com_port (self p) = "" →
  toggle_relay sn p =
    (Ok tt,
     {| self := self p;
        env := (showerror "Error" "Please select a COM port first!" (env p)).2 |}).
Proof.
  intros Hst Hport. unfold toggle_relay. unfold_monad. simpl.
  rewrite Hst, Hport. reflexivity.
Qed.

Lemma toggle_relay_run (p : Process) (sn : string) (b : bool) (t : string)
    (rest : list Widget) :
  relay_states (self p) !! sn = Some b →
  selected_com_port (self p) ≠ "" →
  is_Some (status_circles (self p) !! sn) →
  relay_frames (self p) !! sn = Some (Button t :: rest) →
  toggle_relay sn p =
    (Ok tt,
     {| self := set_relay_frames <[sn := Button (if negb b then "ON" else "OFF") :: rest]>
                  (set_status_circles <[sn := if negb b then "green" else "red"]>
                     (set_relay_states <[sn := negb b]> (self p)));
        env := (send_command (selected_com_port (self p)) (negb b) (env p)).2 |}).
Proof.
  intros Hst Hport Hc Hfr. unfold toggle_relay.
  unfold mbind at 1, M_bind at 1, get_self at 1.
  unfold mbind at 1, M_bind at 1, getitem at 1. rewrite Hst.
  unfold mret at 1, M_ret at 1. cbn beta iota zeta.
  rewrite bool_decide_false by done.
  unfold mbind at 1, M_bind at 1, liftW at 1.
  rewrite send_command_run. cbn beta iota zeta.
  unfold mbind at 1, M_bind at 1, modify_self at 1, modify at 1. cbn beta iota zeta.
  erewrite update_ui_run; [reflexivity | | |]; simpl.
  - apply lookup_insert_eq.
  - done.
  - done.
Qed.

Section Store.
Context `{Json}.

Lemma load_descriptions_missing (p : Process) :
  files (env p) !! DESCRIPTION_FILE = None →
  load_descriptions p = (Ok tt, p).
Proof.
  intros Hf. unfold load_descriptions, os_path_exists. unfold_monad.
  rewrite Hf. rewrite bool_decide_false by (by intros [? ?]).
  by destruct p.
Qed.

Lemma load_descriptions_valid (p : Process) (content : string)
    (d : gmap string string) :
  files (env p) !! DESCRIPTION_FILE = Some content →
  json_loads content = Some d →
  load_descriptions p =
    (Ok tt, {| self := set_relay_descriptions (λ _, d) (self p); env := env p |}).
Proof.
  destruct p as [app w]. cbn [env self]. intros Hf Hd.
  unfold load_descriptions, os_path_exists, read_file. unfold_monad.
  cbn [env self]. rewrite Hf. rewrite bool_decide_true by eauto.
  cbn beta iota zeta. cbn [env self]. rewrite Hf. cbn beta iota zeta.
  by rewrite Hd.
Qed.

Lemma load_descriptions_malformed (p : Process) (content : string) :
  files (env p) !! DESCRIPTION_FILE = Some content →
  json_loads content = None →
  load_descriptions p = (Raise (JSONDecodeError "Expecting value"), p).
Proof.
  destruct p as [app w]. cbn [env self]. intros Hf Hd.
  unfold load_descriptions, os_path_exists, read_file. unfold_monad.
  cbn [env self]. rewrite Hf. rewrite bool_decide_true by eauto.
  cbn beta iota zeta. cbn [env self]. rewrite Hf. cbn beta iota zeta.
  by rewrite Hd.
Qed.

Lemma save_descriptions_run (p : Process) :
  save_descriptions p =
    (Ok tt,
     {| self := self p;
        env := {| comports := comports (env p);
                  serial_script := serial_script (env p);
                  files := <[DESCRIPTION_FILE := json_dumps (relay_descriptions (self p))]>
                             (files (env p));
                  trace := trace (env p) ++
                    [EvFileWrite DESCRIPTION_FILE
                       (json_dumps (relay_descriptions (self p)))] |} |}).
Proof. reflexivity. Qed.

Lemma save_description_no_row (p : Process) (sn : string) :
  description_boxes (self p) !! sn = None →
  save_description sn p = (Raise (KeyError sn), p).
Proof.
  intros Hbox. unfold save_description. unfold_monad. simpl. by rewrite Hbox.
Qed.

Lemma save_description_run (p : Process) (sn box : string) :
  description_boxes (self p) !! sn = Some box →
  save_description sn p =
    (Ok tt,
     {| self := set_relay_descriptions <[sn := strip (Text_get_all box)]> (self p);
        env := {| comports := comports (env p);
                  serial_script := serial_script (env p);
                  files := <[DESCRIPTION_FILE :=
                               json_dumps (<[sn := strip (Text_get_all box)]>
                                             (relay_descriptions (self p)))]>
                             (files (env p));
                  trace := trace (env p) ++
                    [EvFileWrite DESCRIPTION_FILE
                       (json_dumps (<[sn := strip (Text_get_all box)]>
                                      (relay_descriptions (self p))));
                     EvShowInfo "Saved"
                       ("Description for Relay " +:+ sn +:+ " saved.")] |} |}).
Proof.
  intros Hbox. unfold save_description.
  unfold mbind at 1, M_bind at 1, get_self at 1.
  unfold mbind at 1, M_bind at 1, getitem at 1. rewrite Hbox.
  unfold mret at 1, M_ret at 1. cbn beta iota zeta.
  unfold mbind at 1, M_bind at 1, modify_self at 1, modify at 1. cbn beta iota zeta.
  unfold mbind at 1, M_bind at 1. rewrite save_descriptions_run.
  cbn. by rewrite <- app_assoc.
Qed.

Lemma clear_description_no_row (p : Process) (sn : string) :
  description_boxes (self p) !! sn = None →
  clear_description sn p = (Raise (KeyError sn), p).
Proof.
  intros Hbox. unfold clear_description. unfold_monad. simpl. by rewrite Hbox.
Qed.

Lemma clear_description_absent (p : Process) (sn box : string) :
  description_boxes (self p) !! sn = Some box →
  relay_descriptions (self p) !! sn = None →
  clear_description sn p =
    (Ok tt, {| self := set_description_boxes <[sn := ""]> (self p); env := env p |}).
Proof.
  intros Hbox Hd. unfold clear_description. unfold_monad. simpl.
  rewrite Hbox. simpl. rewrite Hd.
  by rewrite bool_decide_false by (by intros [? ?]).
Qed.

Lemma clear_description_present (p : Process) (sn box : string) :
  description_boxes (self p) !! sn = Some box →
  is_Some (relay_descriptions (self p) !! sn) →
  clear_description sn p =
    (Ok tt,
     {| self := set_relay_descriptions (delete sn)
                  (set_description_boxes <[sn := ""]> (self p));
        env := {| comports := comports (env p);
                  serial_script := serial_script (env p);
                  files := <[DESCRIPTION_FILE :=
                               json_dumps (delete sn (relay_descriptions (self p)))]>
                             (files (env p));
                  trace := trace (env p) ++
                    [EvFileWrite DESCRIPTION_FILE
                       (json_dumps (delete sn (relay_descriptions (self p))))] |} |}).
Proof.
  intros Hbox Hd. unfold clear_description.
  unfold mbind at 1, M_bind at 1, get_self at 1.
  unfold mbind at 1, M_bind at 1, getitem at 1. rewrite Hbox.
  unfold mret at 1, M_ret at 1. cbn beta iota zeta.
  unfold mbind at 1, M_bind at 1, modify_self at 1, modify at 1. cbn beta iota zeta.
  unfold mbind at 1, M_bind at 1, get_self at 1. cbn beta iota zeta.
  cbn [self set_description_boxes relay_descriptions].
  rewrite bool_decide_true by done.
  unfold mbind at 1, M_bind at 1, modify_self at 1, modify at 1. cbn beta iota zeta.
  by rewrite save_descriptions_run.
Qed.

End Store.

(** ** Invariants of a run *)

(** *** The rows show their states *)

Lemma create_row_consistent (app : RelayControlApp) (sn : string) :
  ui_consistent app → ui_consistent (create_row app sn).
Proof.
  intros Hui sn' b. unfold create_row. simpl.
  destruct (decide (sn = sn')) as [<-|Hne].
  - rewrite !lookup_insert_eq. intros [= <-]. eauto.
  - rewrite !lookup_insert_ne by done. apply Hui.
Qed.

Lemma create_rows_consistent (keys : list string) (app : RelayControlApp) :
  ui_consistent app → ui_consistent (foldl create_row app keys).
Proof.
  revert app. induction keys as [|sn keys IH]; intros app Hui; [done|].
  simpl. by apply IH, create_row_consistent.
Qed.

Lemma create_rows_descriptions (keys : list string) (app : RelayControlApp) :
  relay_descriptions (foldl create_row app keys) = relay_descriptions app.
Proof.
  revert app. induction keys as [|sn keys IH]; intros app; [done|].
  simpl. by rewrite IH.
Qed.

Lemma create_ui_run (p : Process) :
  create_ui p =
    (Ok tt,
     {| self :=
          let app := match device <$> comports (env p) with
                     | first :: _ => set_selected_com_port first (self p)
                     | [] => self p
                     end in
          foldl create_row app (map_to_list (relay_ports app)).*1;
        env := env p |}).
Proof.
  destruct p as [app w]. unfold create_ui, list_ports_comports. unfold_monad.
  cbn [env self]. by destruct (device <$> comports w).
Qed.

Lemma toggle_relay_consistent (p : Process) (sn : string) :
  ui_consistent (self p) → ui_consistent (self (toggle_relay sn p).2).
Proof.
  intros Hui.
  destruct (relay_states (self p) !! sn) as [b|] eqn:Hst;
    [|by rewrite toggle_relay_no_row].
  destruct (decide (selected_com_port (self p) = "")) as [Hport|Hport];
    [by erewrite toggle_relay_unselected|].
  destruct (Hui sn b Hst) as (Hc & rest & Hfr).
  erewrite toggle_relay_run by eauto. cbn [snd self].
  intros sn' b'. unfold row_consistent. simpl.
  destruct (decide (sn = sn')) as [<-|Hne].
  - rewrite !lookup_insert_eq. intros [= <-]. eauto.
  - rewrite !lookup_insert_ne by done. apply Hui.
Qed.

Lemma same_rows_consistent (a a' : RelayControlApp) :
  same_rows a a' → ui_consistent a → ui_consistent a'.
Proof.
  intros (Hs & Hc & Hf) Hui sn b. unfold row_consistent.
  rewrite Hs, Hc, Hf. apply Hui.
Qed.

Section Invariants.
Context `{Json}.

Lemma save_description_same_rows (p : Process) (sn : string) :
  same_rows (self p) (self (save_description sn p).2).
Proof.
  destruct (description_boxes (self p) !! sn) as [box|] eqn:Hbox.
  - by erewrite save_description_run.
  - by rewrite save_description_no_row.
Qed.

Lemma clear_description_same_rows (p : Process) (sn : string) :
  same_rows (self p) (self (clear_description sn p).2).
Proof.
  destruct (description_boxes (self p) !! sn) as [box|] eqn:Hbox;
    [|by rewrite clear_description_no_row].
  destruct (relay_descriptions (self p) !! sn) as [v|] eqn:Hd.
  - by erewrite clear_description_present by eauto.
  - by erewrite clear_description_absent.
Qed.

Lemma callback_consistent (p : Process) (a : UserAction) :
  ui_consistent (self p) → ui_consistent (self (mainloop_step p a)).
Proof.
  intros Hui. unfold mainloop_step. destruct a as [sn|sn|sn| |port|sn text|ports];
    cbn [callback].
  - by apply toggle_relay_consistent.
  - eapply same_rows_consistent; [apply save_description_same_rows | done].
  - eapply same_rows_consistent; [apply clear_description_same_rows | done].
  - done.
  - done.
  - done.
  - by destruct p.
Qed.

Lemma init_run (p : Process) :
  __init__ p =
    match load_descriptions
            {| self := {| relay_ports := foldl relay_step ∅ (comports (env p));
                          relay_frames := ∅; status_circles := ∅; relay_states := ∅;
                          description_boxes := ∅; relay_descriptions := ∅;
                          selected_com_port := "" |};
               env := env p |} with
    | (Ok _, p2) => create_ui p2
    | (Raise e, p2) => (Raise e, p2)
    end.
Proof. by destruct p as [app [cp sc fs tr]]. Qed.

(** [load_descriptions] changes nothing but [relay_descriptions]. *)
Lemma load_descriptions_cases (p : Process) :
  (∃ e, load_descriptions p = (Raise e, p)) ∨
  (∃ d, load_descriptions p =
          (Ok tt, {| self := set_relay_descriptions (λ _, d) (self p); env := env p |}) ∧
        match files (env p) !! DESCRIPTION_FILE with
        | Some content => json_loads content = Some d
        | None => d = relay_descriptions (self p)
        end).
Proof.
  destruct (files (env p) !! DESCRIPTION_FILE) as [content|] eqn:Hf.
  - destruct (json_loads content) as [d|] eqn:Hd.
    + right. exists d. by erewrite load_descriptions_valid.
    + left. eexists. by erewrite load_descriptions_malformed.
  - right. exists (relay_descriptions (self p)).
    rewrite load_descriptions_missing by done. by destruct p as [[] ?].
Qed.

Lemma init_consistent (w : World) (p : Process) :
  __init__ {| self := blank; env := w |} = (Ok tt, p) → ui_consistent (self p).
Proof.
  rewrite init_run. cbn [env].
  match goal with |- context [load_descriptions ?q] =>
    destruct (load_descriptions_cases q) as [[e ->] | (d & -> & _)] end;
    [done|].
  rewrite create_ui_run. intros [= <-]. cbn [self env].
  apply create_rows_consistent.
  intros sn b. unfold row_consistent.
  destruct (device <$> comports w); simpl; by rewrite lookup_empty.
Qed.

Lemma reachable_consistent (p : Process) : reachable p → ui_consistent (self p).
Proof.
  induction 1 as [w p Hinit | p a _ IH].
  - by eapply init_consistent.
  - by apply callback_consistent.
Qed.

End Invariants.

(** *** The file holds the descriptions in memory *)

Lemma update_ui_store (p : Process) (sn : string) :
  relay_descriptions (self (update_ui sn p).2) = relay_descriptions (self p) ∧
  env (update_ui sn p).2 = env p.
Proof.
  unfold update_ui. unfold_monad. simpl.
  destruct (relay_states (self p) !! sn) as [b|]; [|done].
  destruct (status_circles (self p) !! sn) as [c|]; [|done]. simpl.
  destruct (relay_frames (self p) !! sn) as [fr|]; [|done].
  unfold_monad. simpl.
  destruct (fr !! 0) as [[t| |]|]; unfold_monad; done.
Qed.

Lemma toggle_relay_selected (p : Process) (sn : string) (b : bool) :
  relay_states (self p) !! sn = Some b →
  selected_com_port (self p) ≠ "" →
  toggle_relay sn p =
    update_ui sn
      {| self := set_relay_states <[sn := negb b]> (self p);
         env := (send_command (selected_com_port (self p)) (negb b) (env p)).2 |}.
Proof.
  intros Hst Hport. unfold toggle_relay.
  unfold mbind at 1, M_bind at 1, get_self at 1.
  unfold mbind at 1, M_bind at 1, getitem at 1. rewrite Hst.
  unfold mret at 1, M_ret at 1. cbn beta iota zeta.
  rewrite bool_decide_false by done.
  unfold mbind at 1, M_bind at 1, liftW at 1.
  rewrite send_command_run. reflexivity.
Qed.

(** Toggling touches neither the descriptions nor the files. *)
Lemma toggle_relay_store (p : Process) (sn : string) :
  relay_descriptions (self (toggle_relay sn p).2) = relay_descriptions (self p) ∧
  files (env (toggle_relay sn p).2) = files (env p).
Proof.
  destruct (relay_states (self p) !! sn) as [b|] eqn:Hst;
    [|by rewrite toggle_relay_no_row].
  destruct (decide (selected_com_port (self p) = "")) as [Hport|Hport];
    [by erewrite toggle_relay_unselected|].
  erewrite toggle_relay_selected by done.
  match goal with |- context [update_ui sn ?q] =>
    destruct (update_ui_store q sn) as [-> ->] end.
  by rewrite send_command_run.
Qed.

Section Synced.
Context `{Json} `{!JsonLawful}.

Lemma toggle_relay_synced (p : Process) (sn : string) :
  store_synced p → store_synced (toggle_relay sn p).2.
Proof.
  pose proof (toggle_relay_store p sn) as [Hd Hf].
  unfold store_synced. by rewrite Hd, Hf.
Qed.

Lemma save_description_synced (p : Process) (sn : string) :
  store_synced p → store_synced (save_description sn p).2.
Proof.
  intros Hs. destruct (description_boxes (self p) !! sn) as [box|] eqn:Hbox.
  - erewrite save_description_run by done. unfold store_synced. simpl.
    rewrite lookup_insert_eq. apply json_loads_dumps.
  - by rewrite save_description_no_row.
Qed.

Lemma clear_description_synced (p : Process) (sn : string) :
  store_synced p → store_synced (clear_description sn p).2.
Proof.
  intros Hs. destruct (description_boxes (self p) !! sn) as [box|] eqn:Hbox;
    [|by rewrite clear_description_no_row].
  destruct (relay_descriptions (self p) !! sn) as [v|] eqn:Hd.
  - erewrite clear_description_present by eauto. unfold store_synced. simpl.
    rewrite lookup_insert_eq. apply json_loads_dumps.
  - by erewrite clear_description_absent.
Qed.

Lemma callback_synced (p : Process) (a : UserAction) :
  store_synced p → store_synced (mainloop_step p a).
Proof.
  intros Hs. unfold mainloop_step. destruct a as [sn|sn|sn| |port|sn text|ports];
    cbn [callback].
  - by apply toggle_relay_synced.
  - by apply save_description_synced.
  - by apply clear_description_synced.
  - done.
  - done.
  - done.
  - by destruct p.
Qed.

Lemma init_synced (w : World) (p : Process) :
  __init__ {| self := blank; env := w |} = (Ok tt, p) → store_synced p.
Proof.
  rewrite init_run. cbn [env].
  match goal with |- context [load_descriptions ?q] =>
    destruct (load_descriptions_cases q) as [[e ->] | (d & -> & Hd)] end;
    [done|].
  rewrite create_ui_run. intros [= <-]. unfold store_synced. cbn [self env] in *.
  rewrite create_rows_descriptions.
  destruct (files w !! DESCRIPTION_FILE);
    by destruct (device <$> comports w).
Qed.

Lemma reachable_synced (p : Process) : reachable p → store_synced p.
Proof.
  induction 1 as [w p Hinit | p a _ IH].
  - by eapply init_synced.
  - by apply callback_synced.
Qed.

End Synced.

(** ** Toggling *)

Section Toggle.
Context `{Json}.

(** C1 (as amended): for every relay row of a running application, a
    toggle with a port selected sends the command and then flips the
    in-memory state of that row, whether or not the send failed (a
    failed send has only shown its error dialog); the state is left as
    it was only when no port is selected, in which case nothing is sent. *)
Theorem toggle_relay_flips_when_port_selected (p : Process) (sn : string) (b : bool) :
  reachable p →
  relay_states (self p) !! sn = Some b →
  ∃ p', toggle_relay sn p = (Ok tt, p') ∧
    if decide (selected_com_port (self p) = "") then
      self p' = self p ∧
      trace (env p') =
        trace (env p) ++ [EvShowError "Error" "Please select a COM port first!"]
    else
      relay_states (self p') !! sn = Some (negb b) ∧
      env p' = (send_command (selected_com_port (self p)) (negb b) (env p)).2 ∧
      error_dialogs (trace (env p')) =
        error_dialogs (trace (env p)) ++
        match (next_outcome (env p)).1 with
        | SerialOK => []
        | OpenFails msg | WriteFails msg =>
            [("Error", "Failed to send command: " +:+ msg)]
        end.
Proof.
  intros Hreach Hst. apply reachable_consistent in Hreach.
  destruct (Hreach sn b Hst) as (Hc & rest & Hfr).
  case_decide as Hport.
  - eexists. split; [by apply (toggle_relay_unselected p sn b)|]. done.
  - eexists. split; [eapply toggle_relay_run; eauto|].
    cbn [self env]. split; [apply lookup_insert_eq|]. split; [done|].
    apply send_command_dialogs.
Qed.

(** C8: for every relay row of a running application with a port
    selected, toggling twice succeeds both times and brings the
    indicator back to its colour, the button back to its label and the
    in-memory state back to its value; the whole application object is
    as it was. *)
Theorem toggle_relay_twice_restores (p : Process) (sn : string) (b : bool) :
  reachable p →
  relay_states (self p) !! sn = Some b →
  selected_com_port (self p) ≠ "" →
  ∃ p1 p2,
    toggle_relay sn p = (Ok tt, p1) ∧
    toggle_relay sn p1 = (Ok tt, p2) ∧
    indicator_color (self p2) sn = indicator_color (self p) sn ∧
    button_label (self p2) sn = button_label (self p) sn ∧
    relay_states (self p2) !! sn = Some b ∧
    relay_states (self p1) !! sn = Some (negb b) ∧
    self p2 = self p.
Proof.
  intros Hreach Hst Hport. apply reachable_consistent in Hreach.
  destruct (Hreach sn b Hst) as (Hc & rest & Hfr).
  eexists. eexists.
  split; [eapply toggle_relay_run; eauto|].
  split.
  { eapply toggle_relay_run; cbn [self].
    - apply lookup_insert_eq.
    - done.
    - simpl. rewrite lookup_insert_eq. eauto.
    - simpl. apply lookup_insert_eq. }
  cbn [self]. rewrite negb_involutive.
  assert (Hself :
    set_relay_frames <[sn := Button (if b then "ON" else "OFF") :: rest]>
      (set_status_circles <[sn := if b then "green" else "red"]>
         (set_relay_states <[sn := b]>
            (set_relay_frames <[sn := Button (if negb b then "ON" else "OFF") :: rest]>
               (set_status_circles <[sn := if negb b then "green" else "red"]>
                  (set_relay_states <[sn := negb b]> (self p)))))) = self p).
  { destruct (self p) as [ports frames circles states boxes descs port].
    unfold set_relay_frames, set_status_circles, set_relay_states. simpl in *.
    rewrite !insert_insert_eq. f_equal; by apply insert_id. }
  rewrite Hself. repeat split; try done. simpl. apply lookup_insert_eq.
Qed.

End Toggle.

(** ** The description store *)

Section StoreClaims.
Context `{Json}.

Lemma load_missing (w : World) :
  files w !! DESCRIPTION_FILE = None → load w = Ok ∅.
Proof.
  intros Hf. unfold load. by rewrite load_descriptions_missing.
Qed.

Lemma load_valid (w : World) (content : string) (d : gmap string string) :
  files w !! DESCRIPTION_FILE = Some content →
  json_loads content = Some d → load w = Ok d.
Proof.
  intros Hf Hd. unfold load. by erewrite load_descriptions_valid.
Qed.

Lemma load_malformed (w : World) (content : string) :
  files w !! DESCRIPTION_FILE = Some content →
  json_loads content = None → load w = Raise (JSONDecodeError "Expecting value").
Proof.
  intros Hf Hd. unfold load. by erewrite load_descriptions_malformed.
Qed.

Lemma load_synced (p : Process) :
  store_synced p → load (env p) = Ok (relay_descriptions (self p)).
Proof.
  unfold store_synced.
  destruct (files (env p) !! DESCRIPTION_FILE) as [content|] eqn:Hf.
  - intros Hd. by eapply load_valid.
  - intros ->. by apply load_missing.
Qed.

(** C4: when the description file does not exist, loading yields the
    empty mapping; when it exists and is not valid JSON, loading raises
    the parse error, nothing catches it, and [__init__] raises it too:
    the application does not start. *)
Theorem load_descriptions_missing_or_malformed (w : World) :
  (files w !! DESCRIPTION_FILE = None → load w = Ok ∅) ∧
  (∀ content,
     files w !! DESCRIPTION_FILE = Some content →
     json_loads content = None →
     load w = Raise (JSONDecodeError "Expecting value") ∧
     (__init__ {| self := blank; env := w |}).1 =
       Raise (JSONDecodeError "Expecting value")).
Proof.
  split; [apply load_missing|].
  intros content Hf Hd. split; [by eapply load_malformed|].
  rewrite init_run. by erewrite load_descriptions_malformed.
Qed.

(** C10: clearing a key that is not in the in-memory descriptions leaves
    the whole environment as it was: the description file is not
    written, its contents are unchanged. *)
Theorem clear_description_absent_key_no_write (p : Process) (k : string) :
  relay_descriptions (self p) !! k = None →
  env (clear_description k p).2 = env p ∧
  files (env (clear_description k p).2) !! DESCRIPTION_FILE =
    files (env p) !! DESCRIPTION_FILE ∧
  file_writes (trace (env (clear_description k p).2)) = file_writes (trace (env p)).
Proof.
  intros Hk.
  assert (Henv : env (clear_description k p).2 = env p).
  { destruct (description_boxes (self p) !! k) as [box|] eqn:Hbox.
    - by erewrite clear_description_absent.
    - by rewrite clear_description_no_row. }
  by rewrite Henv.
Qed.

Context `{!JsonLawful}.

(** C5 (as amended): in a running application, for every key that has a
    relay row, clearing its description and then loading the store yields
    a mapping without that key, whether or not the key was there before. *)
Theorem clear_description_then_load (p : Process) (k : string) :
  reachable p →
  is_Some (description_boxes (self p) !! k) →
  ∃ p' d, clear_description k p = (Ok tt, p') ∧
          load (env p') = Ok d ∧
          d !! k = None.
Proof.
  intros Hreach [box Hbox]. apply reachable_synced in Hreach.
  pose proof (clear_description_synced p k Hreach) as Hs.
  apply load_synced in Hs. revert Hs.
  destruct (relay_descriptions (self p) !! k) as [v|] eqn:Hd.
  - erewrite clear_description_present by eauto. cbn [snd]. intros Hs.
    eexists. eexists. split; [done|]. split; [exact Hs|].
    simpl. apply lookup_delete_eq.
  - erewrite clear_description_absent by eauto. cbn [snd]. intros Hs.
    eexists. eexists. split; [done|]. split; [exact Hs|]. done.
Qed.

(** C6: for every store that loads, loading it, saving it back
    unchanged and loading again yields the mapping of the first load;
    doing so once more leaves the same file. *)
Theorem load_save_load (w : World) (d : gmap string string) :
  load w = Ok d →
  ∃ p, (load_descriptions ;; save_descriptions) {| self := blank; env := w |} = (Ok tt, p) ∧
       relay_descriptions (self p) = d ∧
       load (env p) = Ok d ∧
       ∃ p2, (load_descriptions ;; save_descriptions) {| self := blank; env := env p |}
               = (Ok tt, p2) ∧
             files (env p2) = files (env p).
Proof.
  unfold load. intros Hload.
  destruct (load_descriptions_cases {| self := blank; env := w |})
    as [[e He] | (d' & Hd' & _)].
  { by rewrite He in Hload. }
  rewrite Hd' in Hload. injection Hload as Hdd. cbn [self relay_descriptions
    set_relay_descriptions] in Hdd. subst d'.
  assert (Hround : ∀ w' : World,
    load_descriptions {| self := blank; env := w' |} =
      (Ok tt, {| self := set_relay_descriptions (λ _, d) blank; env := w' |}) →
    ∃ p, (load_descriptions ;; save_descriptions) {| self := blank; env := w' |}
           = (Ok tt, p) ∧
         relay_descriptions (self p) = d ∧
         files (env p) = <[DESCRIPTION_FILE := json_dumps d]> (files w') ∧
         load_descriptions {| self := blank; env := env p |} =
           (Ok tt, {| self := set_relay_descriptions (λ _, d) blank; env := env p |})).
  { intros w' Hw'. eexists. split.
    { unfold mbind, M_bind. rewrite Hw'. apply save_descriptions_run. }
    cbn [self env files]. split; [done|]. split; [done|].
    eapply load_descriptions_valid; [apply lookup_insert_eq | apply json_loads_dumps]. }
  destruct (Hround w Hd') as (p & Hp & Hpd & Hpf & Hpl).
  exists p. split; [done|]. split; [done|]. split.
  { by rewrite Hpl. }
  destruct (Hround (env p) Hpl) as (p2 & Hp2 & _ & Hp2f & _).
  exists p2. split; [done|]. by rewrite Hp2f, Hpf, insert_insert_eq.
Qed.

(** C9: saving the description of a relay row stores, and writes to the
    file, what the box holds with the white space at both ends removed
    (the newline Tk adds to the text included): the saved value is the
    entered text without a run of white space before and after, it has
    no white space at either end, and it is what a later load finds
    under that key. *)
Theorem save_description_persists_stripped (p : Process) (sn entered : string) :
  description_boxes (self p) !! sn = Some entered →
  ∃ p', save_description sn p = (Ok tt, p') ∧
    relay_descriptions (self p') !! sn = Some (strip entered) ∧
    files (env p') !! DESCRIPTION_FILE =
      Some (json_dumps (<[sn := strip entered]> (relay_descriptions (self p)))) ∧
    (∃ d, load (env p') = Ok d ∧ d !! sn = Some (strip entered)) ∧
    stripped (strip entered) ∧
    ∃ l r, entered = l +:+ strip entered +:+ r ∧
           all_space l = true ∧ all_space r = true.
Proof.
  intros Hbox. eexists. split; [by apply save_description_run|].
  cbn [self env files relay_descriptions set_relay_descriptions].
  rewrite strip_Text_get_all, !lookup_insert_eq.
  split; [done|]. split; [done|]. split.
  - eexists. split.
    + eapply load_valid; [apply lookup_insert_eq | apply json_loads_dumps].
    + apply lookup_insert_eq.
  - split; [apply strip_stripped | apply strip_decomp].
Qed.

End StoreClaims.

(** ** The claims on the test bench *)

Lemma started_reachable (w : World) :
  (__init__ {| self := blank; env := w |}).1 = Ok tt → reachable (started w).
Proof.
  intros Hok. apply (reachable_init w). unfold started.
  destruct (__init__ {| self := blank; env := w |}) as [r p].
  simpl in Hok. by subst r.
Qed.

(** C1, counterexample: the port cannot be opened, the error dialog is
    shown, and the state of the row is flipped all the same. *)
Lemma toggle_relay_flips_after_failed_send :
  let p := started (bench [OpenFails "could not open port 'COM3'"] ∅) in
  relay_states (self p) !! "A50285BI" = Some false ∧
  ∃ p', toggle_relay "A50285BI" p = (Ok tt, p') ∧
        error_dialogs (trace (env p')) =
          [("Error", "Failed to send command: could not open port 'COM3'")] ∧
        writes (trace (env p')) = [] ∧
        relay_states (self p') !! "A50285BI" = Some true.
Proof.
  split; [by vm_compute|].
  eexists. split; [by vm_compute|]. by vm_compute.
Qed.

(** C3, counterexample: two matching ports report the same serial number;
    the first has "6001" in its hardware id and yet the result maps the
    serial number to the device of the second. *)
Lemma find_relay_ports_duplicate_serial :
  relay_port ∈ comports clone_bench ∧
  str_in "6001" (hwid relay_port) = true ∧
  ∃ relays, find_relay_ports clone_bench = (Ok relays, clone_bench) ∧
            relays !! serial_number relay_port = Some "COM4" ∧
            relays !! serial_number relay_port ≠ Some (device relay_port).
Proof.
  split; [by left|]. split; [done|].
  eexists. split; [apply find_relay_ports_run|].
  split; [by vm_compute|]. by vm_compute.
Qed.

(** C7, counterexample: a send that fails returns to its caller exactly
    what a send that succeeds returns; the failure is only shown. *)
Lemma send_command_failure_not_returned :
  let w_fail := bench [OpenFails "could not open port 'COM3'"] ∅ in
  let w_ok := bench [] ∅ in
  (send_command "COM3" true w_fail).1 = Ok tt ∧
  (send_command "COM3" true w_ok).1 = Ok tt ∧
  writes (trace (send_command "COM3" true w_fail).2) = [] ∧
  writes (trace (send_command "COM3" true w_ok).2) = [("COM3", [xff; x01])] ∧
  error_dialogs (trace (send_command "COM3" true w_fail).2) =
    [("Error", "Failed to send command: could not open port 'COM3'")].
Proof. by vm_compute. Qed.

(** C1, on the bench: the write fails, the row is flipped. *)
Lemma toggle_relay_flips_when_port_selected_witness :
  let p := started (bench [WriteFails "device disconnected"] ∅) in
  reachable p ∧
  relay_states (self p) !! "A50285BI" = Some false ∧
  ∃ p', toggle_relay "A50285BI" p = (Ok tt, p') ∧
        relay_states (self p') !! "A50285BI" = Some true.
Proof.
  intros p.
  assert (Hreach : reachable p) by (apply started_reachable; vm_compute; reflexivity).
  assert (Hst : relay_states (self p) !! "A50285BI" = Some false)
    by (vm_compute; reflexivity).
  split; [exact Hreach|]. split; [exact Hst|].
  destruct (toggle_relay_flips_when_port_selected p "A50285BI" false Hreach Hst)
    as (p' & Hrun & Hrest).
  exists p'. split; [exact Hrun|].
  destruct (decide (selected_com_port (self p) = "")) as [Hport|Hport].
  - vm_compute in Hport. discriminate Hport.
  - exact (proj1 Hrest).
Defined.

(** C3, on the bench: the relay board is listed under its serial number. *)
Lemma find_relay_ports_unique_serial_witness :
  ∃ relays, find_relay_ports (bench [] ∅) = (Ok relays, bench [] ∅) ∧
            relays !! "A50285BI" = Some "COM3" ∧
            relays !! "5523" = None.
Proof.
  destruct (find_relay_ports_unique_serial (bench [] ∅) [] [other_port] relay_port)
    as (relays & Hrun & Hiff & _).
  - reflexivity.
  - intros q Hq Hm. apply list_elem_of_singleton in Hq. subst q.
    vm_compute in Hm. discriminate Hm.
  - exists relays. split; [exact Hrun|]. split.
    + apply Hiff. exists "USB VID:PID=0403:", " SER=A50285BI". reflexivity.
    + rewrite find_relay_ports_run in Hrun. injection Hrun as <-.
      vm_compute. reflexivity.
Defined.

(** C4, on the bench: no file, and a file that is not JSON. *)
Lemma load_descriptions_missing_or_malformed_witness :
  load (bench [] ∅) = Ok ∅ ∧
  load (bench [] broken_store) = Raise (JSONDecodeError "Expecting value") ∧
  (__init__ {| self := blank; env := bench [] broken_store |}).1 =
    Raise (JSONDecodeError "Expecting value").
Proof.
  split.
  - apply (proj1 (load_descriptions_missing_or_malformed (bench [] ∅))).
    vm_compute. reflexivity.
  - apply (proj2 (load_descriptions_missing_or_malformed (bench [] broken_store))
             "{ not json"); vm_compute; reflexivity.
Defined.

(** C5, counterexample: the file holds a description under a serial
    number that is not attached, so there is no row for it; clearing that
    key raises [KeyError] on the description box before anything is
    deleted, and a load still finds the key. *)
Lemma clear_description_stale_key_stays :
  let fs : gmap string string :=
    {[ DESCRIPTION_FILE := PyJson.dumps {[ "OLD00001" := "Spare" ]} ]} in
  let p := started (bench [] fs) in
  reachable p ∧
  relay_descriptions (self p) !! "OLD00001" = Some "Spare" ∧
  clear_description "OLD00001" p = (Raise (KeyError "OLD00001"), p) ∧
  ∃ d, load (env (clear_description "OLD00001" p).2) = Ok d ∧
       d !! "OLD00001" = Some "Spare".
Proof.
  intros fs p. split.
  { apply started_reachable. by vm_compute. }
  split; [by vm_compute|]. split; [by vm_compute|].
  eexists. split; by vm_compute.
Qed.

(** C5, on the bench: the stored description of the relay is cleared. *)
Lemma clear_description_then_load_witness :
  let p := started (bench [] pump_store) in
  relay_descriptions (self p) !! "A50285BI" = Some "Pump relay" ∧
  ∃ p' d, clear_description "A50285BI" p = (Ok tt, p') ∧
          load (env p') = Ok d ∧
          d !! "A50285BI" = None.
Proof.
  intros p. split; [vm_compute; reflexivity|].
  apply (clear_description_then_load p "A50285BI").
  - apply started_reachable. vm_compute. reflexivity.
  - exists "Pump relay". vm_compute. reflexivity.
Defined.

(** C6, on the bench: the stored description survives a load and a save. *)
Lemma load_save_load_witness :
  load (bench [] pump_store) = Ok {[ "A50285BI" := "Pump relay" ]} ∧
  ∃ p, (load_descriptions ;; save_descriptions)
         {| self := blank; env := bench [] pump_store |} = (Ok tt, p) ∧
       load (env p) = Ok {[ "A50285BI" := "Pump relay" ]}.
Proof.
  assert (Hload : load (bench [] pump_store) = Ok {[ "A50285BI" := "Pump relay" ]})
    by (vm_compute; reflexivity).
  split; [exact Hload|].
  destruct (load_save_load (bench [] pump_store) _ Hload) as (p & Hrun & _ & Hback & _).
  exists p. split; [exact Hrun | exact Hback].
Defined.

(** C8, on the bench: the first send fails, the second succeeds, and the
    row is back where it was. *)
Lemma toggle_relay_twice_restores_witness :
  let p := started (bench [OpenFails "could not open port 'COM3'"; SerialOK] ∅) in
  indicator_color (self p) "A50285BI" = Some "red" ∧
  button_label (self p) "A50285BI" = Some "OFF" ∧
  ∃ p1 p2, toggle_relay "A50285BI" p = (Ok tt, p1) ∧
           toggle_relay "A50285BI" p1 = (Ok tt, p2) ∧
           indicator_color (self p2) "A50285BI" = Some "red" ∧
           button_label (self p2) "A50285BI" = Some "OFF" ∧
           relay_states (self p2) !! "A50285BI" = Some false.
Proof.
  intros p.
  assert (Hc : indicator_color (self p) "A50285BI" = Some "red")
    by (vm_compute; reflexivity).
  assert (Hl : button_label (self p) "A50285BI" = Some "OFF")
    by (vm_compute; reflexivity).
  split; [exact Hc|]. split; [exact Hl|].
  destruct (toggle_relay_twice_restores p "A50285BI" false)
    as (p1 & p2 & H1 & H2 & Hc2 & Hl2 & Hs2 & _).
  - apply started_reachable. vm_compute. reflexivity.
  - vm_compute. reflexivity.
  - vm_compute. discriminate.
  - exists p1, p2. rewrite Hc in Hc2. rewrite Hl in Hl2. auto.
Defined.

(** C9, on the bench: white space around the typed label is not saved. *)
Lemma save_description_persists_stripped_witness :
  let p := mainloop_step (started (bench [] ∅))
             (EditDescription "A50285BI" "  Pump relay  ") in
  strip "  Pump relay  " = "Pump relay" ∧
  ∃ p', save_description "A50285BI" p = (Ok tt, p') ∧
        relay_descriptions (self p') !! "A50285BI" = Some "Pump relay" ∧
        ∃ d, load (env p') = Ok d ∧ d !! "A50285BI" = Some "Pump relay".
Proof.
  intros p. split; [reflexivity|].
  destruct (save_description_persists_stripped p "A50285BI" "  Pump relay  ")
    as (p' & Hrun & Hmem & _ & Hload & _).
  - vm_compute. reflexivity.
  - exists p'. auto.
Defined.

(** C10, on the bench: nothing is stored for the relay, clearing it
    writes nothing. *)
Lemma clear_description_absent_key_no_write_witness :
  let p := started (bench [] ∅) in
  relay_descriptions (self p) !! "A50285BI" = None ∧
  env (clear_description "A50285BI" p).2 = env p ∧
  file_writes (trace (env (clear_description "A50285BI" p).2)) = [].
Proof.
  intros p.
  assert (Hk : relay_descriptions (self p) !! "A50285BI" = None)
    by (vm_compute; reflexivity).
  split; [exact Hk|].
  destruct (clear_description_absent_key_no_write p "A50285BI" Hk) as (Henv & _ & Hw).
  split; [exact Henv|]. rewrite Hw. vm_compute. reflexivity.
Defined.

(** ** The scenarios of the specification *)

(** Of two ports with hardware ids "USB VID:PID=1A86:6001" and
    "USB VID:PID=1A86:7000", only the first is discovered. *)
Example find_relay_ports_scenario :
  let w := {| comports := [ {| device := "/dev/ttyUSB0"; hwid := "USB VID:PID=1A86:6001";
                               serial_number := "SN123" |};
                            {| device := "/dev/ttyUSB1"; hwid := "USB VID:PID=1A86:7000";
                               serial_number := "SN456" |} ];
              serial_script := []; files := ∅; trace := [] |} in
  (find_relay_ports w).1 = Ok {[ "SN123" := "/dev/ttyUSB0" ]}.
Proof. by vm_compute. Qed.

(** No file: the store loads empty. Saving "Pump relay" for SN123 leaves a
    file that holds exactly that object; clearing SN123 leaves the empty
    object. *)
Example description_store_scenario :
  let w := {| comports := [ {| device := "/dev/ttyUSB0"; hwid := "USB VID:PID=1A86:6001";
                               serial_number := "SN123" |} ];
              serial_script := []; files := ∅; trace := [] |} in
  let p0 := started w in
  let p1 := mainloop_step (mainloop_step p0 (EditDescription "SN123" "Pump relay"))
              (ClickSave "SN123") in
  let p2 := mainloop_step p1 (ClickClear "SN123") in
  load w = Ok ∅ ∧
  load (env p1) = Ok {[ "SN123" := "Pump relay" ]} ∧
  files (env p2) !! DESCRIPTION_FILE = Some "{}".
Proof. by vm_compute. Qed.

(** * Further properties of the code *)

(** ** Port discovery *)

(** X1: the serial numbers [find_relay_ports] returns are exactly those
    reported by some enumerated port whose hardware id contains "6001";
    with no such port the result is empty. *)
Theorem find_relay_ports_keys (w : World) (k : string) :
  ∃ relays, find_relay_ports w = (Ok relays, w) ∧
    (is_Some (relays !! k) ↔
       ∃ p, p ∈ comports w ∧ serial_number p = k ∧
            ∃ a b, hwid p = a +:+ "6001" +:+ b) ∧
    ((∀ p, p ∈ comports w → str_in "6001" (hwid p) = false) → relays = ∅).
Proof.
  eexists. split; [apply find_relay_ports_run|]. split.
  - rewrite relay_scan_key. change "6001" with PRODUCT_ID.
    split; intros (p & Hp & Hk & Hm); exists p; (split; [done|]); (split; [done|]);
      by apply str_in_spec.
  - intros Hnone. apply map_eq. intros i. rewrite lookup_empty.
    apply relay_scan_other. intros q Hq Hm.
    change PRODUCT_ID with "6001" in Hm. rewrite (Hnone q Hq) in Hm. discriminate.
Qed.

(** X2: when several matching ports report one serial number, the last
    one enumerated wins: a matching port is listed under its serial number
    with its own device path as soon as no later matching port reports the
    same serial number, whatever the earlier ports are. *)
Theorem find_relay_ports_last_wins (w : World) (before after : list ListPortInfo)
    (p : ListPortInfo) :
  comports w = before ++ p :: after →
  (∃ a b, hwid p = a +:+ "6001" +:+ b) →
  (∀ q, q ∈ after →
        str_in PRODUCT_ID (hwid q) = true → serial_number q ≠ serial_number p) →
  ∃ relays, find_relay_ports w = (Ok relays, w) ∧
            relays !! serial_number p = Some (device p).
Proof.
  intros Hports Hm Hlater. eexists. split; [apply find_relay_ports_run|].
  rewrite Hports.
  replace (before ++ p :: after) with ((before ++ [p]) ++ after)
    by (by rewrite <- app_assoc).
  rewrite foldl_app, relay_scan_other by done.
  rewrite relay_scan_snoc, bool_decide_true, andb_true_r by done.
  apply str_in_spec in Hm. change "6001" with PRODUCT_ID in Hm. by rewrite Hm.
Qed.

Lemma find_relay_ports_last_wins_witness :
  ∃ relays, find_relay_ports clone_bench = (Ok relays, clone_bench) ∧
            relays !! "A50285BI" = Some "COM4".
Proof.
  apply (find_relay_ports_last_wins clone_bench [relay_port] [] clone_port).
  - reflexivity.
  - exists "USB VID:PID=0403:", " SER=A50285BI". reflexivity.
  - intros q Hq. apply not_elem_of_nil in Hq. destruct Hq.
Defined.

(** ** The command sender *)

Lemma open_calls_app (t1 t2 : list Event) :
  open_calls (t1 ++ t2) = open_calls t1 ++ open_calls t2.
Proof. apply omap_app. Qed.

Lemma closes_app (t1 t2 : list Event) : closes (t1 ++ t2) = closes t1 ++ closes t2.
Proof. apply omap_app. Qed.

(** X3: every call of [send_command] opens the port it is given once, at
    9600 baud with a timeout of 1, and closes it exactly when it was
    opened, also when the write fails; it consumes one answer of the
    hardware and touches neither the files nor the list of ports. *)
Theorem send_command_opens_and_closes (port : string) (state : bool) (w : World) :
  let w' := (send_command port state w).2 in
  open_calls (trace w') = open_calls (trace w) ++ [(port, 9600%Z, 1%Z)] ∧
  closes (trace w') =
    closes (trace w) ++
    match (next_outcome w).1 with OpenFails _ => [] | _ => [port] end ∧
  serial_script w' = tail (serial_script w) ∧
  files w' = files w ∧
  comports w' = comports w.
Proof.
  cbv zeta. rewrite send_command_run. cbn [snd trace serial_script files comports].
  rewrite open_calls_app, closes_app.
  repeat split; f_equal; by destruct (next_outcome w).1.
Qed.

(** ** Toggling *)

(** X4: a toggle with a port selected talks to the selected port,
    whatever device path the relay was discovered on, and sends the frame
    of the new state: FF 01 for a row that was off, FF 00 for a row that
    was on (nothing when the port cannot be opened). *)
Theorem toggle_relay_sends_new_state (p : Process) (sn : string) (b : bool) :
  relay_states (self p) !! sn = Some b →
  selected_com_port (self p) ≠ "" →
  let p' := (toggle_relay sn p).2 in
  opens (trace (env p')) = opens (trace (env p)) ++ [selected_com_port (self p)] ∧
  writes (trace (env p')) =
    writes (trace (env p)) ++
    match (next_outcome (env p)).1 with
    | OpenFails _ => []
    | _ => [(selected_com_port (self p), if b then [xff; x00] else [xff; x01])]
    end.
Proof.
  intros Hst Hport. cbv zeta. rewrite (toggle_relay_selected p sn b) by done.
  match goal with |- context [update_ui sn ?q] =>
    destruct (update_ui_store q sn) as [_ ->] end.
  cbn [env]. rewrite send_command_writes_one.
  split; [|by destruct b].
  rewrite send_command_run. cbn [snd trace]. rewrite opens_app. f_equal.
  by destruct (next_outcome (env p)).1.
Qed.

Lemma toggle_relay_sends_new_state_witness :
  let p := started (bench [] ∅) in
  writes (trace (env (toggle_relay "A50285BI" p).2)) = [("COM3", [xff; x01])].
Proof.
  intros p.
  destruct (toggle_relay_sends_new_state p "A50285BI" false) as [_ Hw].
  - vm_compute. reflexivity.
  - vm_compute. discriminate.
  - exact Hw.
Defined.

Lemma update_ui_other_rows (p : Process) (sn other : string) :
  other ≠ sn →
  relay_states (self (update_ui sn p).2) = relay_states (self p) ∧
  status_circles (self (update_ui sn p).2) !! other = status_circles (self p) !! other ∧
  relay_frames (self (update_ui sn p).2) !! other = relay_frames (self p) !! other.
Proof.
  intros Hne. unfold update_ui. unfold_monad. simpl.
  destruct (relay_states (self p) !! sn) as [b|]; [|done].
  destruct (status_circles (self p) !! sn) as [c|]; [|done]. simpl.
  destruct (relay_frames (self p) !! sn) as [fr|]; unfold_monad; simpl;
    [|by rewrite lookup_insert_ne].
  destruct (fr !! 0) as [[t| |]|]; unfold_monad; simpl;
    by rewrite ?lookup_insert_ne.
Qed.

(** X5: a toggle changes nothing of the other rows: their state, their
    indicator and their button stay as they were, whatever happens to the
    command. *)
Theorem toggle_relay_other_rows (p : Process) (sn other : string) :
  other ≠ sn →
  let p' := (toggle_relay sn p).2 in
  relay_states (self p') !! other = relay_states (self p) !! other ∧
  indicator_color (self p') other = indicator_color (self p) other ∧
  button_label (self p') other = button_label (self p) other.
Proof.
  intros Hne. cbv zeta.
  destruct (relay_states (self p) !! sn) as [b|] eqn:Hst;
    [|by rewrite toggle_relay_no_row].
  destruct (decide (selected_com_port (self p) = "")) as [Hport|Hport];
    [by erewrite toggle_relay_unselected|].
  rewrite (toggle_relay_selected p sn b) by done.
  unfold indicator_color, button_label.
  match goal with |- context [update_ui sn ?q] =>
    destruct (update_ui_other_rows q sn other Hne) as (-> & -> & ->) end.
  cbn [self relay_states status_circles relay_frames set_relay_states].
  by rewrite lookup_insert_ne.
Qed.

Lemma toggle_relay_other_rows_witness :
  let p := started (double_bench []) in
  relay_states (self p) !! "B0031X77" = Some false ∧
  relay_states (self (toggle_relay "A50285BI" p).2) !! "A50285BI" = Some true ∧
  relay_states (self (toggle_relay "A50285BI" p).2) !! "B0031X77" = Some false.
Proof.
  intros p.
  assert (Hb : relay_states (self p) !! "B0031X77" = Some false)
    by (vm_compute; reflexivity).
  split; [exact Hb|]. split; [vm_compute; reflexivity|].
  destruct (toggle_relay_other_rows p "A50285BI" "B0031X77") as [Hs _].
  - discriminate.
  - rewrite <- Hb. exact Hs.
Defined.

(** ** update_ui *)

Lemma update_ui_ok_inv (p : Process) (sn : string) :
  (update_ui sn p).1 = Ok tt →
  ∃ b t rest,
    relay_states (self p) !! sn = Some b ∧
    is_Some (status_circles (self p) !! sn) ∧
    relay_frames (self p) !! sn = Some (Button t :: rest).
Proof.
  unfold update_ui. unfold_monad. simpl.
  destruct (relay_states (self p) !! sn) as [b|]; [|done].
  destruct (status_circles (self p) !! sn) as [c|]; [|done]. simpl.
  destruct (relay_frames (self p) !! sn) as [fr|]; unfold_monad; simpl; [|done].
  destruct fr as [|[t| |] rest]; unfold_monad; simpl; try done.
  intros _. exists b, t, rest. eauto.
Qed.

(** X6: when [update_ui] returns, the row shows its state (green and ON,
    or red and OFF), the states and the environment are as before, and
    calling it again changes nothing. *)
Theorem update_ui_shows_state (p : Process) (sn : string) :
  (update_ui sn p).1 = Ok tt →
  let p' := (update_ui sn p).2 in
  row_consistent (self p') sn ∧
  relay_states (self p') = relay_states (self p) ∧
  env p' = env p ∧
  update_ui sn p' = (Ok tt, p').
Proof.
  intros Hok. destruct (update_ui_ok_inv p sn Hok) as (b & t & rest & Hst & Hc & Hfr).
  cbv zeta. rewrite (update_ui_run p sn b t rest) by done. cbn [snd].
  split; [|split; [done|split; [done|]]].
  - intros b'. cbn [self relay_states set_relay_frames set_status_circles
                    status_circles relay_frames].
    rewrite Hst, !lookup_insert_eq. intros [= <-]. eauto.
  - erewrite update_ui_run; cbn [self relay_states set_relay_frames
      set_status_circles status_circles relay_frames];
      [ | exact Hst | rewrite lookup_insert_eq; eauto | apply lookup_insert_eq ].
    destruct (self p) as [ports frames circles states boxes descs port].
    unfold set_relay_frames, set_status_circles. cbn.
    by rewrite !insert_insert_eq.
Qed.

Lemma update_ui_shows_state_witness :
  let p := started (bench [] ∅) in
  update_ui "A50285BI" p = (Ok tt, p).
Proof.
  intros p.
  destruct (update_ui_shows_state p "A50285BI") as (_ & _ & _ & Hagain).
  - vm_compute. reflexivity.
  - assert (Hsame : (update_ui "A50285BI" p).2 = p) by (vm_compute; reflexivity).
    rewrite Hsame in Hagain. exact Hagain.
Defined.

(** ** Invariants of a run *)

Section RunInvariants.
Context `{Json}.

(** X7: at every moment of a run, every row shows its state: the
    indicator is green and the button reads ON when the in-memory state is
    on, red and OFF when it is off. *)
Theorem rows_always_show_state (p : Process) (sn : string) (b : bool) :
  reachable p →
  relay_states (self p) !! sn = Some b →
  indicator_color (self p) sn = Some (if b then "green" else "red") ∧
  button_label (self p) sn = Some (if b then "ON" else "OFF").
Proof.
  intros Hreach Hst. apply reachable_consistent in Hreach.
  destruct (Hreach sn b Hst) as (Hc & rest & Hfr).
  unfold indicator_color, button_label. by rewrite Hc, Hfr.
Qed.

(** X8: the rows are those made at start: no user action, not even
    refreshing the ports or plugging devices in or out, changes the
    discovered relays, the set of rows with a state or the set of
    description boxes. *)
Theorem rows_fixed_after_start (p : Process) (a : UserAction) :
  relay_ports (self (mainloop_step p a)) = relay_ports (self p) ∧
  dom (relay_states (self (mainloop_step p a))) = dom (relay_states (self p)) ∧
  dom (description_boxes (self (mainloop_step p a))) = dom (description_boxes (self p)).
Proof.
  unfold mainloop_step. destruct a as [sn|sn|sn| |port|sn text|ports]; cbn [callback].
  - destruct (relay_states (self p) !! sn) as [b|] eqn:Hst;
      [|by rewrite toggle_relay_no_row].
    destruct (decide (selected_com_port (self p) = "")) as [Hport|Hport];
      [by erewrite toggle_relay_unselected|].
    rewrite (toggle_relay_selected p sn b) by done.
    match goal with |- context [update_ui sn ?q] =>
      assert (Hq : relay_ports (self (update_ui sn q).2) = relay_ports (self q) ∧
                   relay_states (self (update_ui sn q).2) = relay_states (self q) ∧
                   description_boxes (self (update_ui sn q).2) =
                     description_boxes (self q));
      [|destruct Hq as (-> & -> & ->)] end.
    { unfold update_ui. unfold_monad. simpl. rewrite lookup_insert_eq.
      destruct (status_circles (self p) !! sn) as [c|]; [|done]. simpl.
      destruct (relay_frames (self p) !! sn) as [fr|]; unfold_monad; simpl; [|done].
      destruct (fr !! 0) as [[t| |]|]; unfold_monad; done. }
    cbn [self relay_ports relay_states description_boxes set_relay_states].
    split; [done|]. split; [|done].
    apply dom_insert_lookup_L. eauto.
  - destruct (description_boxes (self p) !! sn) as [box|] eqn:Hbox.
    + by erewrite save_description_run.
    + by rewrite save_description_no_row.
  - destruct (description_boxes (self p) !! sn) as [box|] eqn:Hbox;
      [|by rewrite clear_description_no_row].
    destruct (relay_descriptions (self p) !! sn) as [v|] eqn:Hd.
    + erewrite clear_description_present by eauto. cbn.
      split; [done|]. split; [done|]. apply dom_insert_lookup_L. eauto.
    + erewrite clear_description_absent by eauto. cbn.
      split; [done|]. split; [done|]. apply dom_insert_lookup_L. eauto.
  - done.
  - done.
  - cbn. split; [done|]. split; [done|]. apply dom_alter_L.
  - by destruct p.
Qed.

End RunInvariants.

Lemma rows_always_show_state_witness :
  let p := mainloop_step (started (bench [] ∅)) (ClickToggle "A50285BI") in
  relay_states (self p) !! "A50285BI" = Some true ∧
  indicator_color (self p) "A50285BI" = Some "green" ∧
  button_label (self p) "A50285BI" = Some "ON".
Proof.
  intros p.
  assert (Hst : relay_states (self p) !! "A50285BI" = Some true)
    by (vm_compute; reflexivity).
  split; [exact Hst|].
  apply (rows_always_show_state p "A50285BI" true); [|exact Hst].
  apply reachable_step, started_reachable. vm_compute. reflexivity.
Defined.

(** ** Starting the application *)

Lemma create_rows_snoc (keys : list string) (k : string) (app : RelayControlApp) :
  foldl create_row app (keys ++ [k]) = create_row (foldl create_row app keys) k.
Proof. by rewrite foldl_app. Qed.

Lemma create_row_lookup (app : RelayControlApp) (k sn : string) :
  relay_states (create_row app k) !! sn =
    (if decide (sn = k) then Some false else relay_states app !! sn) ∧
  status_circles (create_row app k) !! sn =
    (if decide (sn = k) then Some "red" else status_circles app !! sn) ∧
  relay_frames (create_row app k) !! sn =
    (if decide (sn = k)
     then Some [Button "OFF"; Canvas; ScrolledText; Button "Save"; Button "Clear"]
     else relay_frames app !! sn) ∧
  description_boxes (create_row app k) !! sn =
    (if decide (sn = k) then Some (default "" (relay_descriptions app !! sn))
     else description_boxes app !! sn).
Proof.
  unfold create_row.
  cbn [relay_states status_circles relay_frames description_boxes
       set_relay_frames set_description_boxes set_relay_states set_status_circles].
  case_decide as Hk.
  - subst k. rewrite !lookup_insert_eq. repeat split.
  - by rewrite !lookup_insert_ne.
Qed.

Lemma create_rows_row (keys : list string) (app : RelayControlApp) (sn : string) :
  sn ∈ keys →
  relay_states (foldl create_row app keys) !! sn = Some false ∧
  status_circles (foldl create_row app keys) !! sn = Some "red" ∧
  relay_frames (foldl create_row app keys) !! sn =
    Some [Button "OFF"; Canvas; ScrolledText; Button "Save"; Button "Clear"] ∧
  description_boxes (foldl create_row app keys) !! sn =
    Some (default "" (relay_descriptions app !! sn)).
Proof.
  induction keys as [|k keys IH] using rev_ind; intros Hin.
  - by apply not_elem_of_nil in Hin.
  - rewrite create_rows_snoc.
    destruct (create_row_lookup (foldl create_row app keys) k sn)
      as (-> & -> & -> & ->).
    case_decide as Hk.
    + by rewrite create_rows_descriptions.
    + apply IH. apply elem_of_app in Hin as [Hin|Hin]; [done|].
      by apply list_elem_of_singleton in Hin.
Qed.

Lemma create_rows_no_row (keys : list string) (app : RelayControlApp) (sn : string) :
  sn ∉ keys →
  relay_states (foldl create_row app keys) !! sn = relay_states app !! sn ∧
  status_circles (foldl create_row app keys) !! sn = status_circles app !! sn ∧
  relay_frames (foldl create_row app keys) !! sn = relay_frames app !! sn ∧
  description_boxes (foldl create_row app keys) !! sn = description_boxes app !! sn.
Proof.
  induction keys as [|k keys IH] using rev_ind; intros Hin; [done|].
  rewrite create_rows_snoc.
  destruct (create_row_lookup (foldl create_row app keys) k sn)
    as (-> & -> & -> & ->).
  rewrite not_elem_of_app in Hin. destruct Hin as [Hkeys Hk].
  rewrite list_elem_of_singleton in Hk.
  rewrite !decide_False by done. by apply IH.
Qed.

Lemma create_rows_ports (keys : list string) (app : RelayControlApp) :
  relay_ports (foldl create_row app keys) = relay_ports app ∧
  selected_com_port (foldl create_row app keys) = selected_com_port app.
Proof.
  revert app. induction keys as [|k keys IH]; intros app; [done|].
  simpl. by destruct (IH (create_row app k)) as [-> ->].
Qed.

Lemma elem_of_map_keys (m : gmap string string) (k : string) :
  k ∈ (map_to_list m).*1 ↔ is_Some (m !! k).
Proof.
  rewrite list_elem_of_fmap. split.
  - intros ([k' v] & -> & Hin). apply elem_of_map_to_list in Hin. eauto.
  - intros [v Hv]. exists (k, v). split; [done|]. by apply elem_of_map_to_list.
Qed.

Section Start.
Context `{Json}.

(** X9: after a start, there is a row for each discovered relay and for
    nothing else; every row is off (state False, red indicator, button
    OFF, then the canvas, the description box and the Save and Clear
    buttons), and its description box holds the stored description of
    the relay, or nothing when none is stored. *)
Theorem init_rows (w : World) (p : Process) (sn : string) :
  __init__ {| self := blank; env := w |} = (Ok tt, p) →
  relay_ports (self p) = foldl relay_step ∅ (comports w) ∧
  match relay_ports (self p) !! sn with
  | Some _ =>
      relay_states (self p) !! sn = Some false ∧
      status_circles (self p) !! sn = Some "red" ∧
      relay_frames (self p) !! sn =
        Some [Button "OFF"; Canvas; ScrolledText; Button "Save"; Button "Clear"] ∧
      description_boxes (self p) !! sn =
        Some (default "" (relay_descriptions (self p) !! sn))
  | None =>
      relay_states (self p) !! sn = None ∧
      status_circles (self p) !! sn = None ∧
      relay_frames (self p) !! sn = None ∧
      description_boxes (self p) !! sn = None
  end.
Proof.
  rewrite init_run. cbn [env].
  match goal with |- context [load_descriptions ?q] =>
    destruct (load_descriptions_cases q) as [[e ->] | (d & -> & _)] end;
    [done|].
  rewrite create_ui_run. intros [= <-]. cbn [self env].
  match goal with |- context [foldl create_row ?a _] => set (app := a) end.
  set (keys := (map_to_list (relay_ports app)).*1).
  assert (Hports : relay_ports app = foldl relay_step ∅ (comports w))
    by (subst app; by destruct (device <$> comports w)).
  assert (Hempty : relay_states app = ∅ ∧ status_circles app = ∅ ∧
                   relay_frames app = ∅ ∧ description_boxes app = ∅)
    by (subst app; by destruct (device <$> comports w)).
  destruct (create_rows_ports keys app) as [Hp _]. rewrite Hp.
  split; [done|].
  destruct (relay_ports app !! sn) as [dev|] eqn:Hsn.
  - rewrite create_rows_descriptions. apply create_rows_row.
    subst keys. apply elem_of_map_keys. eauto.
  - destruct Hempty as (Hs & Hc & Hf & Hb).
    destruct (create_rows_no_row keys app sn) as (-> & -> & -> & ->).
    { subst keys. rewrite elem_of_map_keys, Hsn. by intros [? ?]. }
    by rewrite Hs, Hc, Hf, Hb, !lookup_empty.
Qed.

(** X10: the application starts exactly when the description store
    loads: it then holds the loaded descriptions, has selected the first
    enumerated port (none when there is no port), and has left the
    environment untouched: starting sends no command, shows no dialog and
    writes no file. When the store does not load, [__init__] raises the
    same error. *)
Theorem init_starts_when_store_loads (w : World) :
  match load w with
  | Ok d =>
      ∃ p, __init__ {| self := blank; env := w |} = (Ok tt, p) ∧
           env p = w ∧
           relay_descriptions (self p) = d ∧
           selected_com_port (self p) =
             match comports w with info :: _ => device info | [] => "" end
  | Raise e =>
      ∃ q, __init__ {| self := blank; env := w |} = (Raise e, q) ∧ env q = w
  end.
Proof.
  unfold load. rewrite init_run. cbn [env].
  destruct (files w !! DESCRIPTION_FILE) as [content|] eqn:Hf.
  - destruct (json_loads content) as [d|] eqn:Hd.
    + rewrite !(load_descriptions_valid _ content d) by done.
      rewrite create_ui_run. eexists. split; [done|]. cbn [self env].
      split; [done|]. rewrite create_rows_descriptions.
      match goal with |- context [foldl create_row ?a ?ks] =>
        destruct (create_rows_ports ks a) as [_ ->] end.
      by destruct (comports w).
    + rewrite !(load_descriptions_malformed _ content) by done. eauto.
  - rewrite !load_descriptions_missing by done.
    rewrite create_ui_run. eexists. split; [done|]. cbn [self env].
    split; [done|]. rewrite create_rows_descriptions.
    match goal with |- context [foldl create_row ?a ?ks] =>
      destruct (create_rows_ports ks a) as [_ ->] end.
    by destruct (comports w).
Qed.

Context `{!JsonLawful}.

(** X11: at every moment of a run, the description file holds exactly
    the descriptions in memory: loading the store would return them (the
    empty mapping when there is still no file). *)
Theorem file_always_holds_descriptions (p : Process) :
  reachable p → load (env p) = Ok (relay_descriptions (self p)).
Proof.
  intros Hreach. by apply load_synced, reachable_synced.
Qed.

End Start.

Lemma init_rows_witness :
  let p := started (bench [] pump_store) in
  relay_states (self p) !! "A50285BI" = Some false ∧
  description_boxes (self p) !! "A50285BI" = Some "Pump relay" ∧
  relay_states (self p) !! "5523" = None.
Proof.
  intros p.
  assert (Hinit : __init__ {| self := blank; env := bench [] pump_store |} = (Ok tt, p))
    by (vm_compute; reflexivity).
  pose proof (init_rows _ p "A50285BI" Hinit) as [_ Hrow].
  pose proof (init_rows _ p "5523" Hinit) as [_ Hnone].
  assert (Hk : relay_ports (self p) !! "A50285BI" = Some "COM3")
    by (vm_compute; reflexivity).
  assert (Hn : relay_ports (self p) !! "5523" = None) by (vm_compute; reflexivity).
  assert (Hd : relay_descriptions (self p) !! "A50285BI" = Some "Pump relay")
    by (vm_compute; reflexivity).
  rewrite Hk in Hrow. rewrite Hn in Hnone. rewrite Hd in Hrow.
  destruct Hrow as (Hs & _ & _ & Hb). destruct Hnone as (Hs' & _).
  split; [exact Hs|]. split; [exact Hb | exact Hs'].
Defined.

Lemma file_always_holds_descriptions_witness :
  let p := mainloop_step
             (mainloop_step (started (bench [] ∅))
                (EditDescription "A50285BI" "Pump relay"))
             (ClickSave "A50285BI") in
  relay_descriptions (self p) !! "A50285BI" = Some "Pump relay" ∧
  load (env p) = Ok (relay_descriptions (self p)).
Proof.
  intros p. split; [vm_compute; reflexivity|].
  apply file_always_holds_descriptions.
  do 2 apply reachable_step. apply started_reachable. vm_compute. reflexivity.
Defined.

(** ** Refreshing the ports *)

Section Refresh.
Context `{Json}.

Lemma refresh_ports_run (p : Process) :
  refresh_ports p =
    (Ok tt,
     {| self := set_selected_com_port
                  (match comports (env p) with info :: _ => device info | [] => "" end)
                  (self p);
        env := {| comports := comports (env p);
                  serial_script := serial_script (env p);
                  files := files (env p);
                  trace := trace (env p) ++
                    [EvShowInfo "Ports Refreshed" "Available COM ports updated."] |} |}).
Proof.
  unfold refresh_ports, list_ports_comports, showinfo, emit. unfold_monad.
  cbn [self env]. destruct (comports (env p)); reflexivity.
Qed.

(** [refresh_ports] replaces whatever port was selected by the
    first enumerated port, or by no port when none is enumerated, shows
    one information dialog, and changes nothing else: not the rows, not
    the discovered relays, not the descriptions, not the files. *)
Lemma refresh_ports_selects_first (p : Process) :
  ∃ p', refresh_ports p = (Ok tt, p') ∧
    selected_com_port (self p') =
      match comports (env p) with info :: _ => device info | [] => "" end ∧
    same_rows (self p) (self p') ∧
    relay_ports (self p') = relay_ports (self p) ∧
    relay_descriptions (self p') = relay_descriptions (self p) ∧
    description_boxes (self p') = description_boxes (self p) ∧
    files (env p') = files (env p) ∧
    trace (env p') =
      trace (env p) ++ [EvShowInfo "Ports Refreshed" "Available COM ports updated."].
Proof.
  eexists. split; [apply refresh_ports_run|]. done.
Qed.

(** X12: when no port is enumerated, a refresh leaves no port selected
    and the next toggle is refused: the row keeps its state, nothing is
    opened or written on any serial port, and the dialog asking to select
    a port is shown. *)
Theorem refresh_without_ports_blocks_toggle (p : Process) (sn : string) (b : bool) :
  comports (env p) = [] →
  relay_states (self p) !! sn = Some b →
  ∃ p1 p2,
    refresh_ports p = (Ok tt, p1) ∧
    toggle_relay sn p1 = (Ok tt, p2) ∧
    relay_states (self p2) !! sn = Some b ∧
    indicator_color (self p2) sn = indicator_color (self p) sn ∧
    button_label (self p2) sn = button_label (self p) sn ∧
    opens (trace (env p2)) = opens (trace (env p)) ∧
    writes (trace (env p2)) = writes (trace (env p)) ∧
    error_dialogs (trace (env p2)) =
      error_dialogs (trace (env p)) ++ [("Error", "Please select a COM port first!")].
Proof.
  intros Hnone Hst. eexists. eexists. split; [apply refresh_ports_run|].
  split.
  { apply (toggle_relay_unselected _ sn b); cbn; [done|]. by rewrite Hnone. }
  cbn. rewrite <- !app_assoc, opens_app, writes_app, error_dialogs_app. cbn.
  rewrite !app_nil_r. done.
Qed.

End Refresh.

Lemma refresh_without_ports_blocks_toggle_witness :
  let p := mainloop_step (started (bench [] ∅)) (Replug []) in
  selected_com_port (self p) = "COM3" ∧
  ∃ p1 p2,
    refresh_ports p = (Ok tt, p1) ∧
    toggle_relay "A50285BI" p1 = (Ok tt, p2) ∧
    relay_states (self p2) !! "A50285BI" = Some false ∧
    opens (trace (env p2)) = [].
Proof.
  intros p. split; [vm_compute; reflexivity|].
  destruct (refresh_without_ports_blocks_toggle p "A50285BI" false)
    as (p1 & p2 & H1 & H2 & Hs & _ & _ & Ho & _).
  - vm_compute. reflexivity.
  - vm_compute. reflexivity.
  - exists p1, p2. split; [exact H1|]. split; [exact H2|]. split; [exact Hs|].
    rewrite Ho. vm_compute. reflexivity.
Defined.

(** ** Callbacks on a serial number without a row *)

Section UnknownRow.
Context `{Json}.

(** X13: for a serial number that has no row, each of the three row
    callbacks raises [KeyError] on that serial number before doing
    anything: the application and the environment are as before. *)
Theorem row_callbacks_unknown_serial (p : Process) (sn : string) :
  relay_states (self p) !! sn = None →
  description_boxes (self p) !! sn = None →
  toggle_relay sn p = (Raise (KeyError sn), p) ∧
  save_description sn p = (Raise (KeyError sn), p) ∧
  clear_description sn p = (Raise (KeyError sn), p).
Proof.
  intros Hst Hbox. split; [by apply toggle_relay_no_row|].
  split; [by apply save_description_no_row | by apply clear_description_no_row].
Qed.

End UnknownRow.

Lemma row_callbacks_unknown_serial_witness :
  let p := started (bench [] pump_store) in
  toggle_relay "5523" p = (Raise (KeyError "5523"), p) ∧
  save_description "5523" p = (Raise (KeyError "5523"), p) ∧
  clear_description "5523" p = (Raise (KeyError "5523"), p).
Proof.
  intros p. apply row_callbacks_unknown_serial; vm_compute; reflexivity.
Defined.

(** ** Saving and clearing descriptions *)

Lemma strip_all_space (s : string) : all_space s = true → strip s = "".
Proof. intros Hs. unfold strip. by rewrite lstrip_all_space. Qed.

Section Descriptions.
Context `{Json}.

(** X14: text made of white space only (an empty box included) is saved
    as the empty description: the key is stored with the empty string, it
    is not removed. *)
Theorem save_description_blank (p : Process) (sn entered : string) :
  description_boxes (self p) !! sn = Some entered →
  all_space entered = true →
  ∃ p', save_description sn p = (Ok tt, p') ∧
        relay_descriptions (self p') !! sn = Some "" ∧
        files (env p') !! DESCRIPTION_FILE =
          Some (json_dumps (<[sn := ""]> (relay_descriptions (self p)))).
Proof.
  intros Hbox Hsp. eexists. split; [by apply save_description_run|].
  cbn [self env files relay_descriptions set_relay_descriptions].
  rewrite strip_Text_get_all, (strip_all_space entered), !lookup_insert_eq by done.
  done.
Qed.

(** X15: clearing a row empties its description box, so a Save right
    after a Clear brings the key back with the empty description. *)
Theorem clear_then_save_stores_empty (p : Process) (sn : string) :
  is_Some (description_boxes (self p) !! sn) →
  ∃ p1 p2,
    clear_description sn p = (Ok tt, p1) ∧
    description_boxes (self p1) !! sn = Some "" ∧
    relay_descriptions (self p1) !! sn = None ∧
    save_description sn p1 = (Ok tt, p2) ∧
    relay_descriptions (self p2) !! sn = Some "".
Proof.
  intros [box Hbox].
  assert (Hclear : ∃ p1, clear_description sn p = (Ok tt, p1) ∧
                         description_boxes (self p1) !! sn = Some "" ∧
                         relay_descriptions (self p1) !! sn = None).
  { destruct (relay_descriptions (self p) !! sn) as [v|] eqn:Hd.
    - eexists. split; [eapply clear_description_present; eauto|].
      cbn. by rewrite lookup_insert_eq, lookup_delete_eq.
    - eexists. split; [eapply clear_description_absent; eauto|].
      cbn. by rewrite lookup_insert_eq. }
  destruct Hclear as (p1 & Hrun & Hb1 & Hd1).
  exists p1. eexists. split; [done|]. split; [done|]. split; [done|].
  split; [by apply save_description_run|].
  cbn. by rewrite lookup_insert_eq.
Qed.

Context `{!JsonLawful}.

(** X16: saving or clearing the description of one row leaves the
    description stored under every other key as it was, in memory and in
    the file, also for relays that are no longer attached. *)
Theorem other_descriptions_kept (p : Process) (sn k : string) :
  reachable p →
  k ≠ sn →
  (∃ d, load (env (save_description sn p).2) = Ok d ∧
        d !! k = relay_descriptions (self p) !! k) ∧
  (∃ d, load (env (clear_description sn p).2) = Ok d ∧
        d !! k = relay_descriptions (self p) !! k).
Proof.
  intros Hreach Hne. apply reachable_synced in Hreach. split.
  - eexists. split; [by apply load_synced, save_description_synced|].
    destruct (description_boxes (self p) !! sn) as [box|] eqn:Hbox.
    + erewrite save_description_run by done. cbn. by rewrite lookup_insert_ne.
    + by rewrite save_description_no_row.
  - eexists. split; [by apply load_synced, clear_description_synced|].
    destruct (description_boxes (self p) !! sn) as [box|] eqn:Hbox;
      [|by rewrite clear_description_no_row].
    destruct (relay_descriptions (self p) !! sn) as [v|] eqn:Hd.
    + erewrite clear_description_present by eauto. cbn. by rewrite lookup_delete_ne.
    + by erewrite clear_description_absent.
Qed.

End Descriptions.

(** A store that still holds the label of a relay that is gone. *)
Lemma other_descriptions_kept_witness :
  let fs : gmap string string :=
    {[ DESCRIPTION_FILE := PyJson.dumps {[ "OLD00001" := "Spare" ]} ]} in
  let p := started (bench [] fs) in
  relay_descriptions (self p) !! "OLD00001" = Some "Spare" ∧
  ∃ d, load (env (clear_description "A50285BI"
                    (mainloop_step p (ClickSave "A50285BI"))).2) = Ok d ∧
       d !! "OLD00001" = Some "Spare".
Proof.
  intros fs p.
  assert (Hold : relay_descriptions (self p) !! "OLD00001" = Some "Spare")
    by (vm_compute; reflexivity).
  split; [exact Hold|].
  destruct (other_descriptions_kept (mainloop_step p (ClickSave "A50285BI"))
              "A50285BI" "OLD00001") as [_ (d & Hload & Hd)].
  - apply reachable_step, started_reachable. vm_compute. reflexivity.
  - discriminate.
  - exists d. split; [exact Hload|]. rewrite Hd. vm_compute. reflexivity.
Defined.

Lemma save_description_blank_witness :
  let p := mainloop_step (started (bench [] ∅))
             (EditDescription "A50285BI" ("   " +:+ newline)) in
  ∃ p', save_description "A50285BI" p = (Ok tt, p') ∧
        relay_descriptions (self p') !! "A50285BI" = Some "".
Proof.
  intros p.
  destruct (save_description_blank p "A50285BI" ("   " +:+ newline))
    as (p' & Hrun & Hd & _).
  - vm_compute. reflexivity.
  - vm_compute. reflexivity.
  - exists p'. split; [exact Hrun | exact Hd].
Defined.

Lemma clear_then_save_stores_empty_witness :
  let p := started (bench [] pump_store) in
  relay_descriptions (self p) !! "A50285BI" = Some "Pump relay" ∧
  ∃ p1 p2,
    clear_description "A50285BI" p = (Ok tt, p1) ∧
    save_description "A50285BI" p1 = (Ok tt, p2) ∧
    relay_descriptions (self p2) !! "A50285BI" = Some "".
Proof.
  intros p. split; [vm_compute; reflexivity|].
  destruct (clear_then_save_stores_empty p "A50285BI")
    as (p1 & p2 & H1 & _ & _ & H2 & Hd).
  - exists "Pump relay". vm_compute. reflexivity.
  - exists p1, p2. split; [exact H1|]. split; [exact H2 | exact Hd].
Defined.

(** ** What a user action can do to the environment *)

Lemma file_writes_app (t1 t2 : list Event) :
  file_writes (t1 ++ t2) = file_writes t1 ++ file_writes t2.
Proof. apply omap_app. Qed.

(** The environment after a toggle: untouched, or with the dialog asking
    for a port, or after one [send_command]. *)
Lemma toggle_relay_env (p : Process) (sn : string) :
  env (toggle_relay sn p).2 = env p ∨
  env (toggle_relay sn p).2 =
    (showerror "Error" "Please select a COM port first!" (env p)).2 ∨
  ∃ port state, env (toggle_relay sn p).2 = (send_command port state (env p)).2.
Proof.
  destruct (relay_states (self p) !! sn) as [b|] eqn:Hst;
    [|left; by rewrite toggle_relay_no_row].
  destruct (decide (selected_com_port (self p) = "")) as [Hport|Hport];
    [right; left; by erewrite toggle_relay_unselected|].
  right. right. exists (selected_com_port (self p)), (negb b).
  rewrite (toggle_relay_selected p sn b) by done.
  match goal with |- context [update_ui sn ?q] =>
    by destruct (update_ui_store q sn) as [_ ->] end.
Qed.

Section Steps.
Context `{Json}.

(** X17: no user action makes the application write anything to a serial
    port but one of the two command frames: an action adds at most one
    write, of FF 01 or FF 00, and only a click on a toggle button adds
    one. *)
Theorem mainloop_step_serial_writes (p : Process) (a : UserAction) :
  ∃ new,
    writes (trace (env (mainloop_step p a))) = writes (trace (env p)) ++ new ∧
    length new ≤ 1 ∧
    Forall (λ pd, pd.2 = [xff; x01] ∨ pd.2 = [xff; x00]) new ∧
    (new ≠ [] → ∃ sn, a = ClickToggle sn).
Proof.
  assert (Hnone : ∀ (t t' : list Event) (a : UserAction),
            writes t' = writes t →
            ∃ new, writes t' = writes t ++ new ∧ length new ≤ 1 ∧
                   Forall (λ pd, pd.2 = [xff; x01] ∨ pd.2 = [xff; x00]) new ∧
                   (new ≠ [] → ∃ sn, a = ClickToggle sn)).
  { intros t t' a' Heq. exists []. rewrite app_nil_r. split; [done|].
    split; [cbn; lia|]. split; [constructor|]. intros Hne. by destruct Hne. }
  unfold mainloop_step. destruct a as [sn|sn|sn| |port|sn text|ports]; cbn [callback].
  - destruct (toggle_relay_env p sn) as [-> | [-> | (port & state & ->)]].
    + by apply Hnone.
    + apply Hnone. cbn. by rewrite writes_app, app_nil_r.
    + rewrite send_command_writes_one. eexists. split; [done|].
      destruct (next_outcome (env p)).1; cbn; (split; [lia|]);
        (split; [|eauto]); try done;
        (constructor; [|done]); destruct state; cbn; auto.
  - apply Hnone.
    destruct (description_boxes (self p) !! sn) as [box|] eqn:Hbox.
    + erewrite save_description_run by done. cbn.
      by rewrite writes_app, app_nil_r.
    + by rewrite save_description_no_row.
  - apply Hnone.
    destruct (description_boxes (self p) !! sn) as [box|] eqn:Hbox;
      [|by rewrite clear_description_no_row].
    destruct (relay_descriptions (self p) !! sn) as [v|] eqn:Hd.
    + erewrite clear_description_present by eauto. cbn.
      by rewrite writes_app, app_nil_r.
    + by erewrite clear_description_absent.
  - apply Hnone. rewrite refresh_ports_run. cbn. by rewrite writes_app, app_nil_r.
  - by apply Hnone.
  - by apply Hnone.
  - apply Hnone. by destruct p.
Qed.

(** X18: no user action creates, changes or removes a file other than
    the description file, and only Save and Clear write that one: every
    file write of an action is a write of [relay_descriptions.json]. *)
Theorem mainloop_step_other_files (p : Process) (a : UserAction) :
  (∀ path, path ≠ DESCRIPTION_FILE →
     files (env (mainloop_step p a)) !! path = files (env p) !! path) ∧
  ∃ new,
    file_writes (trace (env (mainloop_step p a))) = file_writes (trace (env p)) ++ new ∧
    Forall (λ pc, pc.1 = DESCRIPTION_FILE) new ∧
    (new ≠ [] → ∃ sn, a = ClickSave sn ∨ a = ClickClear sn).
Proof.
  assert (Hnone : ∀ (w w' : World) (a : UserAction),
            files w' = files w →
            file_writes (trace w') = file_writes (trace w) →
            (∀ path, path ≠ DESCRIPTION_FILE → files w' !! path = files w !! path) ∧
            ∃ new, file_writes (trace w') = file_writes (trace w) ++ new ∧
                   Forall (λ pc, pc.1 = DESCRIPTION_FILE) new ∧
                   (new ≠ [] → ∃ sn, a = ClickSave sn ∨ a = ClickClear sn)).
  { intros w w' a' Hf Ht. split; [by rewrite Hf|].
    exists []. rewrite app_nil_r. split; [done|].
    split; [constructor|]. intros Hne. by destruct Hne. }
  unfold mainloop_step. destruct a as [sn|sn|sn| |port|sn text|ports]; cbn [callback].
  - destruct (toggle_relay_env p sn) as [-> | [-> | (port & state & ->)]].
    + by apply Hnone.
    + apply Hnone; [done|]. cbn. by rewrite file_writes_app, app_nil_r.
    + apply Hnone; rewrite send_command_run; [done|].
      cbn [snd trace]. rewrite file_writes_app.
      destruct (next_outcome (env p)).1; cbn; by rewrite app_nil_r.
  - destruct (description_boxes (self p) !! sn) as [box|] eqn:Hbox.
    + erewrite save_description_run by done. cbn [snd env files trace]. split.
      * intros path Hpath. by rewrite lookup_insert_ne.
      * eexists. rewrite file_writes_app. split; [done|].
        cbn. split; [by constructor | eauto].
    + rewrite save_description_no_row by done. by apply Hnone.
  - destruct (description_boxes (self p) !! sn) as [box|] eqn:Hbox.
    2: { rewrite clear_description_no_row by done. by apply Hnone. }
    destruct (relay_descriptions (self p) !! sn) as [v|] eqn:Hd.
    + erewrite clear_description_present by eauto. cbn [snd env files trace]. split.
      * intros path Hpath. by rewrite lookup_insert_ne.
      * eexists. rewrite file_writes_app. split; [done|].
        cbn. split; [by constructor | eauto].
    + erewrite clear_description_absent by eauto. by apply Hnone.
  - rewrite refresh_ports_run. apply Hnone; [done|].
    cbn. by rewrite file_writes_app, app_nil_r.
  - by apply Hnone.
  - by apply Hnone.
  - destruct p. by apply Hnone.
Qed.

End Steps.

Lemma find_relay_ports_keys_witness :
  (∃ relays, find_relay_ports (bench [] ∅) = (Ok relays, bench [] ∅) ∧
             is_Some (relays !! "A50285BI")) ∧
  (∃ relays,
     find_relay_ports {| comports := [other_port]; serial_script := [];
                         files := ∅; trace := [] |} =
       (Ok relays, {| comports := [other_port]; serial_script := [];
                      files := ∅; trace := [] |}) ∧
     relays = ∅).
Proof.
  split.
  - destruct (find_relay_ports_keys (bench [] ∅) "A50285BI") as (relays & Hrun & Hiff & _).
    exists relays. split; [exact Hrun|]. apply Hiff. exists relay_port.
    split; [by left|]. split; [reflexivity|].
    exists "USB VID:PID=0403:", " SER=A50285BI". reflexivity.
  - destruct (find_relay_ports_keys
                {| comports := [other_port]; serial_script := [];
                   files := ∅; trace := [] |} "5523") as (relays & Hrun & _ & Hempty).
    exists relays. split; [exact Hrun|]. apply Hempty.
    intros q Hq. cbn in Hq. apply list_elem_of_singleton in Hq. subst q.
    vm_compute. reflexivity.
Defined.

Lemma mainloop_step_serial_writes_witness :
  ∃ new,
    writes (trace (env (mainloop_step (started (bench [] ∅)) (ClickToggle "A50285BI")))) =
      new ∧
    length new ≤ 1 ∧
    Forall (λ pd, pd.2 = [xff; x01] ∨ pd.2 = [xff; x00]) new.
Proof.
  destruct (mainloop_step_serial_writes (started (bench [] ∅)) (ClickToggle "A50285BI"))
    as (new & Hw & Hlen & Hall & _).
  exists new. split; [exact Hw|]. split; [exact Hlen | exact Hall].
Defined.

Lemma mainloop_step_other_files_witness :
  let fs : gmap string string := {[ "notes.txt" := "keep" ]} in
  let p := mainloop_step (started (bench [] fs)) (ClickSave "A50285BI") in
  is_Some (files (env p) !! DESCRIPTION_FILE) ∧
  files (env p) !! "notes.txt" = Some "keep".
Proof.
  intros fs p. split; [vm_compute; eauto|].
  destruct (mainloop_step_other_files (started (bench [] fs)) (ClickSave "A50285BI"))
    as [Hother _].
  fold p in Hother. rewrite Hother by discriminate. vm_compute. reflexivity.
Defined.
